(** * langchain/src/util/sql_utils.ts

    A shallow embedding of the schema introspection helpers of
    [sql_utils.ts] and the properties of them that the specification states.

    JavaScript strings are modelled by [string], [Array]s by [list]s, the
    optional fields of an interface by [option]s.  A function that may
    [throw] returns a [Completion]; an [async] function that awaits the data
    source is a state transformer over the [World] (the database behind the
    data source and the console), see [Async]. *)

From Stdlib Require Import ZArith DecimalString DecimalPos DecimalZ.
From stdpp Require Import base tactics option list strings.

Local Open Scope Z_scope.

(** ** Characters that a literal cannot hold *)

(** Line feed, the backslash-n escape of the source. *)
Definition LF : string := String (Ascii.ascii_of_nat 10) "".
(** The double quote character. *)
Definition DQUOTE : string := String (Ascii.ascii_of_nat 34) "".

(** ** The JavaScript values that cross the data source boundary *)

Module Js.

(** The answer of [DataSource.query] is typed [any]; the code inspects it
    dynamically.  Numbers are the integers that JavaScript holds exactly
    and writes in plain decimal, those of absolute value at most 2^53 (no
    [NaN], no fractions, no exponent form); objects are plain objects,
    given by their own enumerable properties in enumeration order. *)
#[warnings="-register-all"] Inductive JsValue : Type :=
| JsUndefined
| JsNull
| JsBoolean (b : bool)
| JsNumber (n : Z)
| JsString (s : string)
| JsArray (elements : list JsValue)
| JsObject (properties : list (string * JsValue)).

(** [Number.prototype.toString] on an integer of absolute value at most
    2^53: its decimal numeral.  Beyond that bound JavaScript rounds the
    digits, and from 10^21 it writes an exponent; the properties below
    that depend on the digits are stated within the bound. *)
Definition Number_toString (n : Z) : string :=
  NilZero.string_of_int (Z.to_int n).

(** The conversion a template literal [`${v}`] applies, where it returns:
    an object without an own [toString] property is written by
    [Object.prototype.toString].  On an object with an own [toString]
    property, which no value of this model can make callable, JavaScript
    throws a [TypeError]; the properties below that depend on the string
    form of the values are stated for the values of [plainValue]. *)
Fixpoint ToString (v : JsValue) : string :=
  match v with
  | JsUndefined => "undefined"
  | JsNull => "null"
  | JsBoolean b => if b then "true" else "false"
  | JsNumber n => Number_toString n
  | JsString s => s
  | JsArray elements =>
      (fix join (l : list JsValue) : string :=
         match l with
         | [] => ""
         | x :: rest =>
             let item :=
               match x with
               | JsUndefined | JsNull => ""
               | _ => ToString x
               end in
             match rest with
             | [] => item
             | _ :: _ => item +:+ "," +:+ join rest
             end
         end) elements
  | JsObject _ => "[object Object]"
  end.

(** [`${s}`] for an optional string field: an absent field reads
    [undefined]. *)
Definition template (s : option string) : string :=
  match s with
  | Some s => s
  | None => ToString JsUndefined
  end.

(** Truthiness, as tested by [!v] and [c ? a : b]. *)
Definition ToBoolean (v : JsValue) : bool :=
  match v with
  | JsUndefined | JsNull => false
  | JsBoolean b => b
  | JsNumber n => negb (n =? 0)
  | JsString s => negb (String.eqb s "")
  | JsArray _ | JsObject _ => true
  end.

Definition Array_isArray (v : JsValue) : bool :=
  match v with
  | JsArray _ => true
  | _ => false
  end.

(** The elements of an array, for [length] and [for ... of]; only used
    behind an [Array_isArray] test. *)
Definition Array_elements (v : JsValue) : list JsValue :=
  match v with
  | JsArray elements => elements
  | _ => []
  end.

(** [Object.values]: [None] stands for the [TypeError] on [undefined] and
    [null].  A string is split character by character, which is the split
    of JavaScript for the strings of ASCII characters. *)
Definition Object_values (v : JsValue) : option (list JsValue) :=
  match v with
  | JsUndefined | JsNull => None
  | JsBoolean _ | JsNumber _ => Some []
  | JsString s =>
      Some ((fix chars (s : string) : list JsValue :=
               match s with
               | EmptyString => []
               | String c s' => JsString (String c "") :: chars s'
               end) s)
  | JsArray elements => Some elements
  | JsObject properties => Some (snd <$> properties)
  end.

End Js.
Import Js.

(** ** What is thrown, and how a call completes *)

Inductive Thrown : Type :=
| Error (message : string)      (** [throw new Error(message)] of this file *)
| TypeError                     (** raised by the runtime *)
| Rejection (reason : JsValue)  (** a rejected [appDataSource.query] *).

Inductive Completion (A : Type) : Type :=
| Normal (a : A)
| Throw (e : Thrown).
Arguments Normal {A} a.
Arguments Throw {A} e.

(** ** Data model *)

Record RawResultTableAndColumn : Type := {
  table_name : string;
  column_name : string;
  data_type : option string;
  is_nullable : string;
}.

Record SqlColumn : Type := {
  columnName : string;
  dataType : option string;
  isNullable : option bool;
}.

Record SqlTable : Type := {
  tableName : string;
  columns : list SqlColumn;
}.

(** ** verifyListTablesExistInDatabase *)

Definition notFoundMessage (errorPrefixMsg tableName : string) : string :=
  errorPrefixMsg +:+ " the table " +:+ tableName
    +:+ " was not found in the database".

(** The [for ... of] loop over [listTables]: the first name that is not
    included throws. *)
Fixpoint verifyEach (onlyTableNames listTables : list string)
    (errorPrefixMsg : string) : Completion unit :=
  match listTables with
  | [] => Normal ()
  | tableName :: rest =>
      if negb (bool_decide (tableName ∈ onlyTableNames))
      then Throw (Error (notFoundMessage errorPrefixMsg tableName))
      else verifyEach onlyTableNames rest errorPrefixMsg
  end.

Definition verifyListTablesExistInDatabase (tablesFromDatabase : list SqlTable)
    (listTables : list string) (errorPrefixMsg : string) : Completion unit :=
  let onlyTableNames := tableName <$> tablesFromDatabase in
  if bool_decide (0 < length listTables)%nat
  then verifyEach onlyTableNames listTables errorPrefixMsg
  else Normal ().

Definition verifyIncludeTablesExistInDatabase
    (tablesFromDatabase : list SqlTable) (includeTables : list string)
    : Completion unit :=
  verifyListTablesExistInDatabase tablesFromDatabase includeTables
    "Include tables not found in database:".

Definition verifyIgnoreTablesExistInDatabase
    (tablesFromDatabase : list SqlTable) (ignoreTables : list string)
    : Completion unit :=
  verifyListTablesExistInDatabase tablesFromDatabase ignoreTables
    "Ignore tables not found in database:".

(** ** formatToSqlTable *)

Definition sqlColumnOf (oneResult : RawResultTableAndColumn) : SqlColumn :=
  {| columnName := column_name oneResult;
     dataType := data_type oneResult;
     isNullable := Some (bool_decide (is_nullable oneResult = "YES")) |}.

(** [currentTable.columns.push(sqlColumn)]: the table found is an element of
    the array, so the push is an update of the array at its index. *)
Definition pushColumn (sqlColumn : SqlColumn) (t : SqlTable) : SqlTable :=
  {| tableName := tableName t; columns := columns t ++ [sqlColumn] |}.

(** One turn of the loop over the raw rows. *)
Definition formatStep (sqlTable : list SqlTable)
    (oneResult : RawResultTableAndColumn) : list SqlTable :=
  let sqlColumn := sqlColumnOf oneResult in
  match list_find (λ oneTable, tableName oneTable = table_name oneResult)
          sqlTable with
  | Some (i, _) => alter (pushColumn sqlColumn) i sqlTable
  | None =>
      let newTable :=
        {| tableName := table_name oneResult; columns := [sqlColumn] |} in
      sqlTable ++ [newTable]
  end.

Definition formatToSqlTable
    (rawResultsTableAndColumn : list RawResultTableAndColumn)
    : list SqlTable :=
  foldl formatStep [] rawResultsTableAndColumn.

(** ** formatSqlResponseToSimpleTableString *)

(** [Object.values(oneRow).reduce(...)] with the empty string as the initial
    value: every value is preceded by one space. *)
Definition rowString (values : list JsValue) : string :=
  foldl (λ completeString columnValue,
           completeString +:+ " " +:+ ToString columnValue) "" values.

(** The loop over the rows; a row that is [undefined] or [null] makes
    [Object.values] throw, which leaves the loop. *)
Fixpoint appendRows (rows : list JsValue) (globalString : string)
    : Completion string :=
  match rows with
  | [] => Normal globalString
  | oneRow :: rest =>
      match Object_values oneRow with
      | None => Throw TypeError
      | Some values =>
          appendRows rest (globalString +:+ rowString values +:+ LF)
      end
  end.

Definition formatSqlResponseToSimpleTableString (rawResult : JsValue)
    : Completion string :=
  if negb (ToBoolean rawResult) || negb (Array_isArray rawResult)
     || bool_decide (length (Array_elements rawResult) = 0%nat)
  then Normal ""
  else appendRows (Array_elements rawResult) "".

(** ** The data source and the asynchronous functions *)

(** How the promise of [appDataSource.query] settles. *)
Inductive Settled : Type :=
| Fulfilled (value : JsValue)
| Rejected (reason : JsValue).

(** The part of a TypeORM [DataSource] that the file uses, over a database
    of state [DB]: the [type] and the [database] of its options (the latter
    optional), and [query], which reads and may change the database. *)
Record DataSource (DB : Type) : Type := {
  options_type : string;
  options_database : option string;
  query : string → DB → Settled * DB;
}.
Arguments options_type {DB} _.
Arguments options_database {DB} _.
Arguments query {DB} _ _ _.

(** What a call can observe and change: the database and the console. *)
Record World (DB : Type) : Type := {
  database : DB;
  console : list Thrown;
}.
Arguments Build_World {DB} _ _.
Arguments database {DB} _.
Arguments console {DB} _.

(** An [async] function body: it completes normally or throws, and leaves a
    world behind. *)
Definition Async (DB A : Type) : Type := World DB → Completion A * World DB.

Section Async.
Context {DB : Type}.

Definition ret {A} (a : A) : Async DB A := λ w, (Normal a, w).

Definition throw {A} (e : Thrown) : Async DB A := λ w, (Throw e, w).

Definition bind {A B} (m : Async DB A) (k : A → Async DB B) : Async DB B :=
  λ w, match m w with
       | (Normal a, w') => k a w'
       | (Throw e, w') => (Throw e, w')
       end.

(** A synchronous call inside an [async] body. *)
Definition call {A} (c : Completion A) : Async DB A := λ w, (c, w).

(** [try { m } catch (error) { handler error }] *)
Definition try_catch {A} (m : Async DB A) (handler : Thrown → Async DB A)
    : Async DB A :=
  λ w, match m w with
       | (Normal a, w') => (Normal a, w')
       | (Throw e, w') => handler e w'
       end.

(** [await appDataSource.query(sql)] *)
Definition await_query (appDataSource : DataSource DB) (sql : string)
    : Async DB JsValue :=
  λ w, match query appDataSource sql (database w) with
       | (Fulfilled value, d) => (Normal value, Build_World d (console w))
       | (Rejected reason, d) =>
           (Throw (Rejection reason), Build_World d (console w))
       end.

(** [console.log(error)] *)
Definition console_log (error : Thrown) : Async DB unit :=
  λ w, (Normal (), Build_World (database w) (console w ++ [error])).

(** [for (const x of l) { acc = body x acc }] *)
Fixpoint for_of {A B} (l : list A) (body : A → B → Async DB B) (acc : B)
    : Async DB B :=
  match l with
  | [] => ret acc
  | x :: rest => bind (body x acc) (for_of rest body)
  end.

End Async.

Notation "'do' x ← m ; k" := (bind m (λ x, k))
  (at level 10, x name, m at level 100, k at level 200).

(** ** getTableAndColumnsName *)

(** The three catalog queries, as the source concatenates them. *)
Definition postgresSql : string :=
  "SELECT" +:+ LF +:+
  "    t.table_name," +:+ LF +:+
  "    c.*" +:+ LF +:+
  "FROM" +:+ LF +:+
  "    information_schema.tables t" +:+ LF +:+
  "        JOIN information_schema.columns c" +:+ LF +:+
  "             ON t.table_name = c.table_name" +:+ LF +:+
  "WHERE" +:+ LF +:+
  "        t.table_schema = 'public'" +:+ LF +:+
  "ORDER BY" +:+ LF +:+
  "    t.table_name," +:+ LF +:+
  "    c.ordinal_position;".

Definition sqliteSql : string :=
  "SELECT " +:+ LF +:+
  "   m.name AS table_name," +:+ LF +:+
  "   p.name AS column_name," +:+ LF +:+
  "   p.type AS data_type," +:+ LF +:+
  "   CASE " +:+ LF +:+
  "      WHEN p." +:+ DQUOTE +:+ "notnull" +:+ DQUOTE +:+ " = 0 THEN 'YES' "
    +:+ LF +:+
  "      ELSE 'NO' " +:+ LF +:+
  "   END AS is_nullable " +:+ LF +:+
  "FROM " +:+ LF +:+
  "   sqlite_master m " +:+ LF +:+
  "JOIN " +:+ LF +:+
  "   pragma_table_info(m.name) p " +:+ LF +:+
  "WHERE " +:+ LF +:+
  "   m.type = 'table' AND " +:+ LF +:+
  "   m.name NOT LIKE 'sqlite_%';" +:+ LF.

Definition mysqlSql (database : option string) : string :=
  "SELECT " +:+
  "TABLE_NAME AS table_name, " +:+
  "COLUMN_NAME AS column_name, " +:+
  "DATA_TYPE AS data_type, " +:+
  "IS_NULLABLE AS is_nullable " +:+
  "FROM INFORMATION_SCHEMA.COLUMNS " +:+
  "WHERE TABLE_SCHEMA = '" +:+ template database +:+ "';".

Section Introspection.
Context {DB : Type}.

(** The answer of [query] is typed [any] and [formatToSqlTable] takes it
    as an array of [RawResultTableAndColumn]: the model takes that reading
    of the answer as given. *)
Context (asRawResults : JsValue → list RawResultTableAndColumn).

(** [const rep = await appDataSource.query(sql); return formatToSqlTable(rep)] *)
Definition listWith (appDataSource : DataSource DB) (sql : string)
    : Async DB (list SqlTable) :=
  do rep ← await_query appDataSource sql;
  ret (formatToSqlTable (asRawResults rep)).

Definition getTableAndColumnsName (appDataSource : DataSource DB)
    : Async DB (list SqlTable) :=
  if bool_decide (options_type appDataSource = "postgres") then
    listWith appDataSource postgresSql
  else if bool_decide (options_type appDataSource = "sqlite") then
    listWith appDataSource sqliteSql
  else if bool_decide (options_type appDataSource = "mysql") then
    listWith appDataSource (mysqlSql (options_database appDataSource))
  else throw (Error "Database type not implemented yet").

End Introspection.

(** ** generateTableInfoFromTables *)

(** The text of one column in the declaration; an absent or false
    [isNullable] writes the qualifier. *)
Definition columnDeclaration (currentColumn : SqlColumn) : string :=
  columnName currentColumn +:+ " " +:+ template (dataType currentColumn)
    +:+ " " +:+
    (if default false (isNullable currentColumn) then "" else "NOT NULL").

(** [sqlCreateTableQuery] after the loop over [columns.entries()] and the
    closing text. *)
Definition sqlCreateTableQuery (currentTable : SqlTable) : string :=
  foldl (λ sqlCreateTableQuery entry,
           let '(key, currentColumn) := entry in
           (if bool_decide (0 < key)%nat
            then sqlCreateTableQuery +:+ ", "
            else sqlCreateTableQuery) +:+ columnDeclaration currentColumn)
        ("CREATE TABLE " +:+ tableName currentTable +:+ " (" +:+ LF)
        (imap pair (columns currentTable))
    +:+ ") " +:+ LF.

(** [nbSampleRow] is a [number]; as in [JsNumber] it is taken among the
    integers of absolute value at most 2^53, which the template literal
    writes in decimal. *)
Definition sqlSelectInfoQuery {DB} (appDataSource : DataSource DB)
    (currentTable : SqlTable) (nbSampleRow : Z) : string :=
  if bool_decide (options_type appDataSource = "mysql") then
    "SELECT * FROM `" +:+ tableName currentTable +:+ "` LIMIT "
      +:+ Number_toString nbSampleRow +:+ ";" +:+ LF
  else
    "SELECT * FROM " +:+ DQUOTE +:+ tableName currentTable +:+ DQUOTE
      +:+ " LIMIT " +:+ Number_toString nbSampleRow +:+ ";" +:+ LF.

Definition columnNamesConcatString (currentTable : SqlTable) : string :=
  foldl (λ completeString column,
           completeString +:+ " " +:+ columnName column) ""
        (columns currentTable)
    +:+ LF.

Section Rendering.
Context {DB : Type}.

(** The [try] block and its handler: [sample] keeps the empty string when
    the query or the formatting throws. *)
Definition sampleOf (appDataSource : DataSource DB)
    (sqlSelectInfoQuery : string) : Async DB string :=
  try_catch
    (do infoObjectResult ← await_query appDataSource sqlSelectInfoQuery;
     call (formatSqlResponseToSimpleTableString infoObjectResult))
    (λ error, do _ ← console_log error; ret "").

(** The body of the loop over the tables. *)
Definition appendTableInfo (appDataSource : DataSource DB)
    (nbSampleRow : Z) (currentTable : SqlTable) (globalString : string)
    : Async DB string :=
  let sqlCreateTableQuery := sqlCreateTableQuery currentTable in
  let sqlSelectInfoQuery :=
    sqlSelectInfoQuery appDataSource currentTable nbSampleRow in
  let columnNamesConcatString := columnNamesConcatString currentTable in
  do sample ← sampleOf appDataSource sqlSelectInfoQuery;
  ret (globalString +:+
         (sqlCreateTableQuery +:+ sqlSelectInfoQuery
            +:+ columnNamesConcatString +:+ sample)).

Definition generateTableInfoFromTables (tables : option (list SqlTable))
    (appDataSource : DataSource DB) (nbSampleRow : Z) : Async DB string :=
  match tables with
  | None => ret ""
  | Some tables =>
      for_of tables (appendTableInfo appDataSource nbSampleRow) ""
  end.

End Rendering.

(** * Notions used to state the properties *)

(** ** Grouping by first occurrence *)

(** The names of a list without their later repetitions. *)
Fixpoint firstOccurrences (names : list string) : list string :=
  match names with
  | [] => []
  | name :: rest => name :: filter (λ n, n ≠ name) (firstOccurrences rest)
  end.

(** The rows of one table, as columns. *)
Definition columnsOf (rows : list RawResultTableAndColumn) (name : string)
    : list SqlColumn :=
  sqlColumnOf <$> filter (λ r, table_name r = name) rows.

Definition tableOf (rows : list RawResultTableAndColumn) (name : string)
    : SqlTable :=
  {| tableName := name; columns := columnsOf rows name |}.

(** ** The sample of a table *)

(** What the [try] block leaves in [sample], and what it logs. *)
Definition sampleText (answer : Settled) : string :=
  match answer with
  | Fulfilled value =>
      match formatSqlResponseToSimpleTableString value with
      | Normal sample => sample
      | Throw _ => ""
      end
  | Rejected _ => ""
  end.

Definition sampleLog (answer : Settled) : list Thrown :=
  match answer with
  | Fulfilled value =>
      match formatSqlResponseToSimpleTableString value with
      | Normal _ => []
      | Throw error => [error]
      end
  | Rejected reason => [Rejection reason]
  end.

(** ** The texts of the declaration and of the statement *)

(** The texts of a list, separated by a comma and a space. *)
Definition commaSeparated (texts : list string) : string :=
  match texts with
  | [] => ""
  | first :: rest => foldl (λ acc text, acc +:+ ", " +:+ text) first rest
  end.

(** The statement of the specification, without its line feed. *)
Definition sampleSelection {DB} (ds : DataSource DB) (t : SqlTable) (n : Z)
    : string :=
  if bool_decide (options_type ds = "mysql") then
    "SELECT * FROM `" +:+ tableName t +:+ "` LIMIT " +:+ Number_toString n
      +:+ ";"
  else
    "SELECT * FROM " +:+ DQUOTE +:+ tableName t +:+ DQUOTE +:+ " LIMIT "
      +:+ Number_toString n +:+ ";".

(** ** Catalog queries *)

(** [needle] occurs in [text]. *)
Definition mentions (needle text : string) : Prop :=
  ∃ before after, text = before +:+ needle +:+ after.

(** Catalog objects of the three databases: the information schema views of
    postgres and of mysql, the schema table and the table pragma of
    sqlite. *)
Definition systemCatalogObjects : list string :=
  [ "information_schema.tables"; "information_schema.columns";
    "sqlite_master"; "pragma_table_info"; "INFORMATION_SCHEMA.COLUMNS" ].

Definition supportedDialects : list string := ["postgres"; "sqlite"; "mysql"].

(** ** The examples *)

Definition usersTable : SqlTable :=
  {| tableName := "Users";
     columns :=
       [ {| columnName := "id"; dataType := Some "int";
            isNullable := Some false |};
         {| columnName := "name"; dataType := Some "text";
            isNullable := Some true |} ] |}.

Definition usersRows : JsValue :=
  JsArray [ JsObject [("id", JsNumber 1); ("name", JsString "a")];
            JsObject [("id", JsNumber 2); ("name", JsString "b")] ].

Definition usersSelect : string :=
  "SELECT * FROM " +:+ DQUOTE +:+ "Users" +:+ DQUOTE +:+ " LIMIT 2;" +:+ LF.

(** The text that the code returns. *)
Definition usersInfo : string :=
  "CREATE TABLE Users (" +:+ LF +:+
  "id int NOT NULL, name text ) " +:+ LF +:+
  usersSelect +:+
  " id name" +:+ LF +:+
  " 1 a" +:+ LF +:+
  " 2 b" +:+ LF.

(** The text of the specification: no line feed after the parenthesis. *)
Definition usersInfoClaimed : string :=
  "CREATE TABLE Users (id int NOT NULL, name text ) " +:+ LF +:+
  usersSelect +:+
  " id name" +:+ LF +:+
  " 1 a" +:+ LF +:+
  " 2 b" +:+ LF.

(** A data source whose answers are a fixed function of the statement, over
    a database that counts the queries it has run. *)
Definition countingSource (type : string) (answer : string → Settled)
    : DataSource nat :=
  {| options_type := type;
     options_database := None;
     query := λ sql d, (answer sql, S d) |}.

Definition usersAnswer (sql : string) : Settled :=
  if bool_decide (sql = usersSelect) then Fulfilled usersRows
  else Rejected JsNull.

(** A table with a column that has neither type nor nullability. *)
Definition ordersTable : SqlTable :=
  {| tableName := "Orders";
     columns := [ {| columnName := "total"; dataType := None;
                     isNullable := None |} ] |}.

(** ** Notions for the further properties *)

(** The number of columns of a snapshot. *)
Definition columnCount (tables : list SqlTable) : nat :=
  sum_list_with (λ t, length (columns t)) tables.

(** [undefined] and [null], on which [Object.values] throws. *)
Definition isNullish (v : JsValue) : bool :=
  match v with
  | JsUndefined | JsNull => true
  | _ => false
  end.

(** The values whose string form [ToString] gives as JavaScript does: a
    number within the bound, an object without an own [toString] property,
    an array of such values, and the other primitive values. *)
Fixpoint plainValue (v : JsValue) : bool :=
  match v with
  | JsUndefined | JsNull | JsBoolean _ | JsString _ => true
  | JsNumber n => bool_decide (- 2 ^ 53 ≤ n ≤ 2 ^ 53)
  | JsArray elements => forallb plainValue elements
  | JsObject properties =>
      forallb (λ property, negb (String.eqb property.1 "toString"))
        properties
  end.

(** The rows that a driver returns: an object or an array, of plain
    values. *)
Definition plainRow (row : JsValue) : bool :=
  match row with
  | JsObject properties => forallb plainValue (snd <$> properties)
  | JsArray elements => forallb plainValue elements
  | _ => false
  end.

(** The line of one row of a sample. *)
Definition rowLine (row : JsValue) : string :=
  rowString (default [] (Object_values row)) +:+ LF.

(** The texts of a list, one after the other. *)
Fixpoint concatS (texts : list string) : string :=
  match texts with
  | [] => ""
  | text :: rest => text +:+ concatS rest
  end.

(** The database after the sample queries of the tables, in their order. *)
Definition databaseAfter {DB} (ds : DataSource DB) (n : Z)
    (tables : list SqlTable) (d : DB) : DB :=
  foldl (λ d t, (query ds (sqlSelectInfoQuery ds t n) d).2) d tables.

(** The answers to the sample queries of the tables, in their order. *)
Fixpoint answersFrom {DB} (ds : DataSource DB) (n : Z)
    (tables : list SqlTable) (d : DB) : list Settled :=
  match tables with
  | [] => []
  | t :: rest =>
      (query ds (sqlSelectInfoQuery ds t n) d).1
        :: answersFrom ds n rest (query ds (sqlSelectInfoQuery ds t n) d).2
  end.

(** Rows of three columns over two tables, interleaved and grouped. *)
Definition rowT1a : RawResultTableAndColumn :=
  {| table_name := "T1"; column_name := "a"; data_type := Some "int";
     is_nullable := "NO" |}.
Definition rowT1b : RawResultTableAndColumn :=
  {| table_name := "T1"; column_name := "b"; data_type := Some "text";
     is_nullable := "YES" |}.
Definition rowT2c : RawResultTableAndColumn :=
  {| table_name := "T2"; column_name := "c"; data_type := None;
     is_nullable := "NO" |}.

(** An answer with a well-formed row and a [null] row. *)
Definition holedAnswer (sql : string) : Settled :=
  Fulfilled (JsArray [JsObject [("id", JsNumber 1)]; JsNull]).

(** A data source that answers every statement with the two rows of
    [Users], and a reading of its answer as three catalog rows. *)
Definition fulfilledAnswer (sql : string) : Settled := Fulfilled usersRows.

Definition threeRows (rep : JsValue) : list RawResultTableAndColumn :=
  [rowT1a; rowT2c; rowT1b].

(** The block of a table, given the answer to its sample query. *)
Definition blockOf {DB} (ds : DataSource DB) (n : Z) (t : SqlTable)
    (answer : Settled) : string :=
  sqlCreateTableQuery t +:+ sqlSelectInfoQuery ds t n
    +:+ columnNamesConcatString t +:+ sampleText answer.

(** * Properties *)

(** ** Strings *)

Lemma app_empty_r (s : string) : s +:+ "" = s.
Proof. induction s as [|c s IH]; [done|]. exact (f_equal (String c) IH). Qed.

Lemma app_assoc_s (s1 s2 s3 : string) :
  s1 +:+ s2 +:+ s3 = (s1 +:+ s2) +:+ s3.
Proof. induction s1 as [|c s1 IH]; [done|]. exact (f_equal (String c) IH). Qed.

Lemma app_length_s (s1 s2 : string) :
  String.length (s1 +:+ s2) = (String.length s1 + String.length s2)%nat.
Proof.
  induction s1 as [|c s1 IH]; [done|].
  change (S (String.length (s1 +:+ s2)) = S (String.length s1 + String.length s2)).
  by rewrite IH.
Qed.

Lemma app_inj_r (s a b : string) : a +:+ s = b +:+ s → a = b.
Proof.
  revert b. induction a as [|c a IH]; intros [|c' b] Heq.
  - done.
  - apply (f_equal String.length) in Heq.
    rewrite !app_length_s in Heq. simpl in Heq. lia.
  - apply (f_equal String.length) in Heq.
    rewrite !app_length_s in Heq. simpl in Heq. lia.
  - change (String c (a +:+ s) = String c' (b +:+ s)) in Heq.
    injection Heq as -> Heq. f_equal. by apply IH.
Qed.

(** ** verifyListTablesExistInDatabase *)

Lemma verifyEach_Normal names listTables prefix :
  verifyEach names listTables prefix = Normal () ↔
    ∀ name, name ∈ listTables → name ∈ names.
Proof.
  induction listTables as [|x l IH]; simpl.
  - split; [|done]. intros _ name Hin. by apply elem_of_nil in Hin.
  - case_bool_decide as Hx; simpl.
    + rewrite IH. split.
      * intros Hl name [->|Hin]%elem_of_cons; auto.
      * intros Hl name Hin. apply Hl. by right.
    + split; [done|]. intros Hl. destruct Hx. apply Hl. by left.
Qed.

Lemma verifyEach_Throw names listTables prefix :
  verifyEach names listTables prefix = Normal () ∨
  ∃ name, name ∈ listTables ∧ (name ∉ names) ∧
    verifyEach names listTables prefix =
      Throw (Error (notFoundMessage prefix name)).
Proof.
  induction listTables as [|x l IH]; simpl; [by left|].
  case_bool_decide as Hx; simpl.
  - destruct IH as [IH|(name & Hin & Hnin & IH)]; [by left|].
    right. exists name. split_and!; [by right|done..].
  - right. exists x. split_and!; [by left|done..].
Qed.

(** C4: [verifyListTablesExistInDatabase] never fails on the empty list of
    names; on any list it completes normally exactly when every name of the
    list is the name of a table of the snapshot, and otherwise it throws an
    error whose message is the prefix, then [ the table ], a name of the
    list that the snapshot lacks, then [ was not found in the database]. *)
Theorem verifyListTablesExistInDatabase_spec
    (tablesFromDatabase : list SqlTable) (listTables : list string)
    (errorPrefixMsg : string) :
  verifyListTablesExistInDatabase tablesFromDatabase [] errorPrefixMsg
    = Normal ()
  ∧ (verifyListTablesExistInDatabase tablesFromDatabase listTables
       errorPrefixMsg = Normal ()
     ↔ ∀ name, name ∈ listTables → name ∈ tableName <$> tablesFromDatabase)
  ∧ (verifyListTablesExistInDatabase tablesFromDatabase listTables
       errorPrefixMsg = Normal ()
     ∨ ∃ name, name ∈ listTables
         ∧ (name ∉ tableName <$> tablesFromDatabase)
         ∧ verifyListTablesExistInDatabase tablesFromDatabase listTables
             errorPrefixMsg
           = Throw (Error (errorPrefixMsg +:+ " the table " +:+ name
                             +:+ " was not found in the database"))).
Proof.
  split; [done|].
  unfold verifyListTablesExistInDatabase.
  destruct listTables as [|x l].
  - split; [|by left]. split; [|done].
    intros _ name Hin. by apply elem_of_nil in Hin.
  - rewrite bool_decide_eq_true_2 by (simpl; lia).
    split; [apply verifyEach_Normal|apply verifyEach_Throw].
Qed.

(** ** formatToSqlTable *)

Lemma elem_of_firstOccurrences (names : list string) (x : string) :
  x ∈ firstOccurrences names ↔ x ∈ names.
Proof.
  induction names as [|a names IH]; simpl; [done|].
  rewrite !elem_of_cons, list_elem_of_filter, IH.
  destruct (decide (x = a)); tauto.
Qed.

Lemma NoDup_firstOccurrences (names : list string) :
  NoDup (firstOccurrences names).
Proof.
  induction names as [|a names IH]; simpl; constructor.
  - rewrite list_elem_of_filter. tauto.
  - by apply NoDup_filter.
Qed.

Lemma firstOccurrences_snoc (names : list string) (x : string) :
  firstOccurrences (names ++ [x]) =
    if decide (x ∈ names) then firstOccurrences names
    else firstOccurrences names ++ [x].
Proof.
  induction names as [|a names IH]; simpl; [done|].
  rewrite IH.
  destruct (decide (x ∈ names)) as [Hin|Hnin],
    (decide (x ∈ a :: names)) as [Hin'|Hnin']; rewrite elem_of_cons in *.
  - done.
  - tauto.
  - destruct Hin' as [->|]; [|done].
    rewrite filter_app, filter_singleton_False by (try exact []; tauto).
    by rewrite app_nil_r.
  - rewrite filter_app, filter_singleton_True by (try exact []; tauto).
    done.
Qed.

Lemma columnsOf_snoc_same rows r :
  columnsOf (rows ++ [r]) (table_name r) =
    columnsOf rows (table_name r) ++ [sqlColumnOf r].
Proof.
  unfold columnsOf.
  rewrite filter_app, filter_singleton_True by (try exact []; done).
  by rewrite fmap_app.
Qed.

Lemma columnsOf_snoc_other rows r name :
  name ≠ table_name r → columnsOf (rows ++ [r]) name = columnsOf rows name.
Proof.
  intros Hne. unfold columnsOf.
  rewrite filter_app, filter_singleton_False by (try exact []; auto).
  by rewrite app_nil_r.
Qed.

Lemma columnsOf_absent rows name :
  name ∉ table_name <$> rows → columnsOf rows name = [].
Proof.
  intros Hnin. unfold columnsOf.
  induction rows as [|r rows IH]; [done|].
  rewrite fmap_cons, not_elem_of_cons in Hnin. destruct Hnin as [Hne Hnin].
  rewrite filter_cons_False by auto. auto.
Qed.

(** The loop of [formatToSqlTable] computes the grouping. *)
Lemma formatToSqlTable_grouped (rows : list RawResultTableAndColumn) :
  formatToSqlTable rows =
    tableOf rows <$> firstOccurrences (table_name <$> rows).
Proof.
  unfold formatToSqlTable.
  induction rows as [|r rows IH] using rev_ind; [done|].
  rewrite foldl_app, IH, fmap_app. clear IH.
  change (table_name <$> [r]) with [table_name r].
  rewrite firstOccurrences_snoc.
  change (foldl formatStep ?a [r]) with (formatStep a r).
  set (N := firstOccurrences (table_name <$> rows)).
  unfold formatStep.
  destruct (list_find _ _) as [[i t]|] eqn:Hfind.
  - apply list_find_Some in Hfind as (Hi & Hname & _).
    rewrite list_lookup_fmap in Hi.
    destruct (N !! i) as [x|] eqn:HNi; simplify_eq/=.
    assert (table_name r ∈ table_name <$> rows) as Hin.
    { apply elem_of_firstOccurrences. eapply list_elem_of_lookup_2. done. }
    rewrite decide_True by done.
    apply list_eq. intros j. rewrite list_lookup_fmap.
    destruct (decide (i = j)) as [<-|Hij].
    + rewrite list_lookup_alter_eq, list_lookup_fmap, HNi. simpl.
      f_equal. unfold pushColumn, tableOf. simpl.
      by rewrite columnsOf_snoc_same.
    + rewrite list_lookup_alter_ne, list_lookup_fmap by done.
      destruct (N !! j) as [y|] eqn:HNj; [|done]. simpl.
      f_equal. unfold tableOf. f_equal.
      rewrite columnsOf_snoc_other; [done|].
      intros ->. apply Hij.
      eapply NoDup_lookup; eauto using NoDup_firstOccurrences.
  - apply list_find_None in Hfind.
    assert (table_name r ∉ table_name <$> rows) as Hnin.
    { rewrite <- elem_of_firstOccurrences. intros Hin.
      rewrite Forall_forall in Hfind.
      apply (Hfind (tableOf rows (table_name r))); [|done].
      by apply list_elem_of_fmap_2. }
    rewrite decide_False by done.
    rewrite fmap_app. simpl. f_equal.
    + apply list_fmap_ext. intros j y Hy.
      unfold tableOf. f_equal.
      rewrite columnsOf_snoc_other; [done|].
      intros ->. apply Hnin, elem_of_firstOccurrences.
      eapply list_elem_of_lookup_2. done.
    + unfold tableOf. rewrite columnsOf_snoc_same.
      by rewrite columnsOf_absent.
Qed.

(** C5: the three rows of the specification normalise to the tables [T1]
    and [T2], in this order, with the columns [a], [b] and [c] as stated;
    and for every input, each column of the result comes from a row of its
    table and is nullable exactly when the [is_nullable] field of that row
    is the string [YES], and each row gives a column of its table. *)
Theorem formatToSqlTable_example_and_nullable :
  formatToSqlTable
    [ {| table_name := "T1"; column_name := "a"; data_type := Some "int";
         is_nullable := "NO" |};
      {| table_name := "T1"; column_name := "b"; data_type := Some "text";
         is_nullable := "YES" |};
      {| table_name := "T2"; column_name := "c"; data_type := Some "int";
         is_nullable := "NO" |} ]
  = [ {| tableName := "T1";
         columns :=
           [ {| columnName := "a"; dataType := Some "int";
                isNullable := Some false |};
             {| columnName := "b"; dataType := Some "text";
                isNullable := Some true |} ] |};
      {| tableName := "T2";
         columns :=
           [ {| columnName := "c"; dataType := Some "int";
                isNullable := Some false |} ] |} ]
  ∧ (∀ rows t c, t ∈ formatToSqlTable rows → c ∈ columns t →
       ∃ r, r ∈ rows ∧ table_name r = tableName t
         ∧ columnName c = column_name r ∧ dataType c = data_type r
         ∧ (isNullable c = Some true ↔ is_nullable r = "YES")
         ∧ (isNullable c = Some false ↔ is_nullable r ≠ "YES"))
  ∧ (∀ rows r, r ∈ rows →
       ∃ t c, t ∈ formatToSqlTable rows ∧ tableName t = table_name r
         ∧ c ∈ columns t
         ∧ columnName c = column_name r ∧ dataType c = data_type r
         ∧ (isNullable c = Some true ↔ is_nullable r = "YES")).
Proof.
  split; [by vm_compute|]. split.
  - intros rows t c. rewrite formatToSqlTable_grouped.
    intros (name & -> & _)%list_elem_of_fmap. simpl. unfold columnsOf.
    intros (r & -> & [Hname Hin]%list_elem_of_filter)%list_elem_of_fmap.
    exists r. split_and!; try done; simpl; case_bool_decide; intuition congruence.
  - intros rows r Hin. rewrite formatToSqlTable_grouped.
    exists (tableOf rows (table_name r)), (sqlColumnOf r). split_and!; try done.
    + apply list_elem_of_fmap_2, elem_of_firstOccurrences.
      by apply list_elem_of_fmap_2.
    + simpl. unfold columnsOf.
      by apply list_elem_of_fmap_2, list_elem_of_filter.
    + simpl. case_bool_decide; intuition congruence.
Qed.

(** C6: for every list of raw rows, the names of the tables of the snapshot
    are pairwise distinct, they are the table names of the rows in the
    order of their first occurrences, and the columns of each table are the
    rows that bear its name, in the order of the input. *)
Theorem formatToSqlTable_invariant (rows : list RawResultTableAndColumn) :
  NoDup (tableName <$> formatToSqlTable rows)
  ∧ tableName <$> formatToSqlTable rows
      = firstOccurrences (table_name <$> rows)
  ∧ (∀ t, t ∈ formatToSqlTable rows →
       columns t
         = sqlColumnOf <$> filter (λ r, table_name r = tableName t) rows).
Proof.
  rewrite formatToSqlTable_grouped.
  assert (tableName <$> (tableOf rows <$> firstOccurrences (table_name <$> rows))
          = firstOccurrences (table_name <$> rows)) as Hnames.
  { rewrite <- list_fmap_compose. apply list_fmap_id. }
  rewrite Hnames. split_and!; [apply NoDup_firstOccurrences|done|].
  by intros t (name & -> & _)%list_elem_of_fmap.
Qed.

(** ** generateTableInfoFromTables *)

Section RenderingFacts.
Context {DB : Type}.
Implicit Types (ds : DataSource DB) (w : World DB) (t : SqlTable).

Lemma sqlSelectInfoQuery_type ds ds' t n :
  options_type ds' = options_type ds →
  sqlSelectInfoQuery ds' t n = sqlSelectInfoQuery ds t n.
Proof. intros Heq. unfold sqlSelectInfoQuery. by rewrite Heq. Qed.

Lemma sqlSelectInfoQuery_inj ds t t' n :
  sqlSelectInfoQuery ds t n = sqlSelectInfoQuery ds t' n →
  tableName t = tableName t'.
Proof.
  unfold sqlSelectInfoQuery. case_bool_decide; intros Heq.
  - apply (inj (String.app _)) in Heq. by apply app_inj_r in Heq.
  - do 2 apply (inj (String.app _)) in Heq. by apply app_inj_r in Heq.
Qed.

Lemma sampleOf_run ds sql w :
  sampleOf ds sql w =
    (Normal (sampleText (query ds sql (database w)).1),
     Build_World (query ds sql (database w)).2
       (console w ++ sampleLog (query ds sql (database w)).1)).
Proof.
  unfold sampleOf, try_catch, bind, await_query, call, console_log, ret.
  destruct (query ds sql (database w)) as [[value|reason] d]; simpl.
  - destruct (formatSqlResponseToSimpleTableString value); simpl.
    + by rewrite app_nil_r.
    + done.
  - done.
Qed.

Lemma appendTableInfo_run ds n t acc w :
  appendTableInfo ds n t acc w =
    let sql := sqlSelectInfoQuery ds t n in
    let answer := query ds sql (database w) in
    (Normal (acc +:+ (sqlCreateTableQuery t +:+ sql
                        +:+ columnNamesConcatString t
                        +:+ sampleText answer.1)),
     Build_World answer.2 (console w ++ sampleLog answer.1)).
Proof. unfold appendTableInfo, bind. rewrite sampleOf_run. reflexivity. Qed.

Lemma for_of_app {A B} (l1 l2 : list A) (body : A → B → Async DB B) acc w :
  for_of (l1 ++ l2) body acc w
    = bind (for_of l1 body acc) (for_of l2 body) w.
Proof.
  revert acc w. unfold bind.
  induction l1 as [|x l1 IH]; intros acc w; simpl; [done|].
  unfold bind. destruct (body x acc w) as [[a|e] w']; [apply IH|done].
Qed.

(** The loop completes normally, and its accumulator only grows. *)
Lemma for_of_appendTableInfo ds n tables acc w :
  ∃ out w',
    for_of tables (appendTableInfo ds n) "" w = (Normal out, w')
    ∧ for_of tables (appendTableInfo ds n) acc w = (Normal (acc +:+ out), w').
Proof.
  revert acc w. induction tables as [|t tables IH]; intros acc w; simpl.
  - exists "", w. unfold ret. by rewrite app_empty_r.
  - unfold bind. rewrite !appendTableInfo_run. simpl.
    set (w1 := Build_World _ _).
    set (block := sqlCreateTableQuery t +:+ _).
    destruct (IH block w1) as (out & w' & Hout & Hblock).
    destruct (IH (acc +:+ block) w1) as (out' & w'' & Hout' & Hacc).
    rewrite Hout in Hout'. simplify_eq.
    exists (block +:+ out'), w''. split; [done|].
    rewrite Hacc. by rewrite app_assoc_s.
Qed.

(** Two data sources whose answers to the sample queries of the tables
    agree, along database states related by [R], render the same text. *)
Lemma for_of_related (R : DB → DB → Prop) ds ds' n tables :
  options_type ds' = options_type ds →
  (∀ t d d', t ∈ tables → R d d' →
     (query ds (sqlSelectInfoQuery ds t n) d).1
       = (query ds' (sqlSelectInfoQuery ds t n) d').1
     ∧ R (query ds (sqlSelectInfoQuery ds t n) d).2
         (query ds' (sqlSelectInfoQuery ds t n) d').2) →
  ∀ acc w w', R (database w) (database w') →
    ∃ out v v',
      for_of tables (appendTableInfo ds n) acc w = (Normal out, v)
      ∧ for_of tables (appendTableInfo ds' n) acc w' = (Normal out, v')
      ∧ R (database v) (database v').
Proof.
  intros Htype. induction tables as [|t tables IH]; intros Hq acc w w' HR.
  - exists acc, w, w'. done.
  - simpl. unfold bind. rewrite !appendTableInfo_run. simpl.
    rewrite (sqlSelectInfoQuery_type ds ds') by done.
    destruct (Hq t (database w) (database w')) as [Hans HR']; [by left|done|].
    rewrite <- Hans. apply IH; [|done].
    intros t' d d' Hin. apply Hq. by right.
Qed.

(** The loop over the tables always completes normally. *)
Lemma generate_Some_run ds n tables w :
  ∃ out, generateTableInfoFromTables (Some tables) ds n w
         = (Normal out, (generateTableInfoFromTables (Some tables) ds n w).2).
Proof.
  simpl. destruct (for_of_appendTableInfo ds n tables "" w)
    as (out & w' & Hout & _).
  exists out. by rewrite Hout.
Qed.

(** The text of a list of tables is the text of its first part, then the
    block of the table in the middle, then the text of the rest. *)
Lemma generate_middle ds n pre t post w answer d :
  let w1 := (generateTableInfoFromTables (Some pre) ds n w).2 in
  let w2 := Build_World d (console w1 ++ sampleLog answer) in
  query ds (sqlSelectInfoQuery ds t n) (database w1) = (answer, d) →
  ∃ out_pre out_post,
    generateTableInfoFromTables (Some pre) ds n w = (Normal out_pre, w1)
    ∧ generateTableInfoFromTables (Some post) ds n w2
        = (Normal out_post,
           (generateTableInfoFromTables (Some post) ds n w2).2)
    ∧ generateTableInfoFromTables (Some (pre ++ t :: post)) ds n w
        = (Normal (out_pre +:+
                     (sqlCreateTableQuery t +:+ sqlSelectInfoQuery ds t n
                        +:+ columnNamesConcatString t
                        +:+ sampleText answer) +:+ out_post),
           (generateTableInfoFromTables (Some post) ds n w2).2).
Proof.
  intros w1 w2 Hquery.
  destruct (generate_Some_run ds n pre w) as [out_pre Hpre].
  destruct (generate_Some_run ds n post w2) as [out_post Hpost].
  exists out_pre, out_post. fold w1 in Hpre. split_and!; [done..|].
  cbn [generateTableInfoFromTables] in *.
  rewrite for_of_app. unfold bind at 1.
  rewrite Hpre. cbn [for_of]. unfold bind at 1.
  rewrite appendTableInfo_run. cbv zeta. rewrite Hquery.
  cbn [fst snd]. fold w2.
  set (block := sqlCreateTableQuery t +:+ _).
  destruct (for_of_appendTableInfo ds n post (out_pre +:+ block) w2)
    as (out & w' & Hout & Hacc).
  rewrite Hout in Hpost. injection Hpost as ->.
  rewrite Hacc, Hout. cbn [snd]. by rewrite <- app_assoc_s.
Qed.

End RenderingFacts.

(** C1, as amended: for the snapshot of the one table [Users] with the
    columns [id] (int, not nullable) and [name] (text, nullable), the sample
    count 2, a dialect other than mysql and a data source that answers the
    sample query with the two rows, the text returned is the declaration
    with a line feed after its opening parenthesis, the select statement,
    the legend and the two rows. *)
Theorem generateTableInfoFromTables_Users {DB} (ds : DataSource DB)
    (w : World DB) :
  options_type ds ≠ "mysql" →
  (query ds usersSelect (database w)).1 = Fulfilled usersRows →
  (generateTableInfoFromTables (Some [usersTable]) ds 2 w).1
    = Normal usersInfo.
Proof.
  intros Htype Hrows. simpl. unfold bind. rewrite appendTableInfo_run.
  assert (sqlSelectInfoQuery ds usersTable 2 = usersSelect) as ->.
  { unfold sqlSelectInfoQuery. by rewrite bool_decide_eq_false_2. }
  simpl. rewrite Hrows. reflexivity.
Qed.

Lemma generateTableInfoFromTables_Users_witness :
  options_type (countingSource "postgres" usersAnswer) ≠ "mysql"
  ∧ (query (countingSource "postgres" usersAnswer) usersSelect
       (database (Build_World 0%nat []))).1 = Fulfilled usersRows
  ∧ (generateTableInfoFromTables (Some [usersTable])
       (countingSource "postgres" usersAnswer) 2 (Build_World 0%nat [])).1
    = Normal usersInfo.
Proof.
  assert (options_type (countingSource "postgres" usersAnswer) ≠ "mysql")
    as Htype by (simpl; discriminate).
  assert ((query (countingSource "postgres" usersAnswer) usersSelect
             (database (Build_World 0%nat []))).1 = Fulfilled usersRows)
    as Hrows by reflexivity.
  split; [exact Htype|]. split; [exact Hrows|].
  exact (generateTableInfoFromTables_Users _ _ Htype Hrows).
Defined.

(** C1, as the specification states it, fails: with the postgres dialect
    and the two rows as the answer, the text returned is not the text of
    the specification. *)
Lemma generateTableInfoFromTables_Users_claimed :
  options_type (countingSource "postgres" usersAnswer) ≠ "mysql"
  ∧ usersAnswer usersSelect = Fulfilled usersRows
  ∧ (generateTableInfoFromTables (Some [usersTable])
       (countingSource "postgres" usersAnswer) 2 (Build_World 0%nat [])).1
    ≠ Normal usersInfoClaimed.
Proof. split_and!; [discriminate|reflexivity|]. vm_compute. discriminate. Qed.

(** C9: when the answers of the data source are a fixed function of the
    statement, whatever the state of the database, the text returned for a
    snapshot and a sample count does not depend on the world in which the
    call is made: any two calls complete normally with the same text, and so
    do two calls in a row. *)
Theorem generateTableInfoFromTables_deterministic {DB} (ds : DataSource DB)
    (answer : string → Settled) (tables : option (list SqlTable)) (n : Z)
    (w1 w2 : World DB) :
  (∀ sql d, (query ds sql d).1 = answer sql) →
  ∃ out,
    (generateTableInfoFromTables tables ds n w1).1 = Normal out
    ∧ (generateTableInfoFromTables tables ds n w2).1 = Normal out
    ∧ (generateTableInfoFromTables tables ds n
         (generateTableInfoFromTables tables ds n w1).2).1 = Normal out.
Proof.
  intros Hfixed. destruct tables as [tables|]; [|by exists ""].
  simpl.
  assert (∀ v v', ∃ out,
            (for_of tables (appendTableInfo ds n) "" v).1 = Normal out
            ∧ (for_of tables (appendTableInfo ds n) "" v').1 = Normal out)
    as Hsame.
  { intros v v'.
    destruct (for_of_related (λ _ _, True) ds ds n tables eq_refl) with
      (acc := "") (w := v) (w' := v') as (out & u & u' & Hv & Hv' & _);
      [|done|].
    - intros t d d' _ _. by rewrite !Hfixed.
    - exists out. by rewrite Hv, Hv'. }
  destruct (Hsame w1 w2) as (out & H1 & H2).
  destruct (Hsame w1 (for_of tables (appendTableInfo ds n) "" w1).2)
    as (out' & H1' & H3).
  exists out. split_and!; [done..|]. congruence.
Qed.

Lemma generateTableInfoFromTables_deterministic_witness :
  (∀ sql d, (query (countingSource "sqlite" usersAnswer) sql d).1
            = usersAnswer sql)
  ∧ ∃ out,
      (generateTableInfoFromTables (Some [usersTable; usersTable])
         (countingSource "sqlite" usersAnswer) 2 (Build_World 0%nat [])).1
        = Normal out
      ∧ (generateTableInfoFromTables (Some [usersTable; usersTable])
           (countingSource "sqlite" usersAnswer) 2
           (Build_World 7%nat [TypeError])).1 = Normal out
      ∧ (generateTableInfoFromTables (Some [usersTable; usersTable])
           (countingSource "sqlite" usersAnswer) 2
           (generateTableInfoFromTables (Some [usersTable; usersTable])
              (countingSource "sqlite" usersAnswer) 2
              (Build_World 0%nat [])).2).1 = Normal out.
Proof.
  assert (∀ sql d, (query (countingSource "sqlite" usersAnswer) sql d).1
                   = usersAnswer sql) as Hfixed by reflexivity.
  split; [exact Hfixed|].
  exact (generateTableInfoFromTables_deterministic
           (countingSource "sqlite" usersAnswer) usersAnswer
           (Some [usersTable; usersTable]) 2
           (Build_World 0%nat []) (Build_World 7%nat [TypeError]) Hfixed).
Defined.

Lemma sqlSelectInfoQuery_statement {DB} (ds : DataSource DB) t n :
  sqlSelectInfoQuery ds t n = sampleSelection ds t n +:+ LF.
Proof.
  unfold sqlSelectInfoQuery, sampleSelection.
  case_bool_decide; by rewrite !app_assoc_s.
Qed.

(** The text of a count is its decimal numeral: read back, it is a numeral
    of value [n], and that numeral is written as the same text. *)
Lemma Number_toString_numeral (n : Z) :
  ∃ numeral,
    NilZero.int_of_string (Number_toString n) = Some numeral
    ∧ Z.of_int numeral = n
    ∧ NilZero.string_of_int numeral = Number_toString n.
Proof.
  exists (Z.to_int n). unfold Number_toString.
  split_and!; [|apply DecimalZ.of_to|done].
  apply NilZero.isi; destruct n as [|q|q]; simpl; try discriminate;
    intros [= Hnil]; by apply Unsigned.to_uint_nonnil in Hnil.
Qed.

(** C8: for a sample count that is an integer of absolute value at most
    2^53, written [count] as its decimal numeral, and for every table of
    the snapshot, the block of the table in the text returned holds, after
    the declaration and before the legend, the statement
    [SELECT * FROM `name` LIMIT count;] when the dialect is mysql and the
    same statement with the name between double quotes for every other
    dialect, each followed by a line feed; this is also the statement sent
    to the data source for the sample. *)
Theorem generateTableInfoFromTables_statement {DB} (ds : DataSource DB)
    (n : Z) (pre post : list SqlTable) (t : SqlTable) (w : World DB) :
  - 2 ^ 53 ≤ n ≤ 2 ^ 53 →
  (∃ numeral,
     NilZero.int_of_string (Number_toString n) = Some numeral
     ∧ Z.of_int numeral = n
     ∧ NilZero.string_of_int numeral = Number_toString n)
  ∧ ∃ out_pre w1 sample w2 out_post w3,
    generateTableInfoFromTables (Some pre) ds n w = (Normal out_pre, w1)
    ∧ sampleOf ds
        ((if bool_decide (options_type ds = "mysql") then
            "SELECT * FROM `" +:+ tableName t +:+ "` LIMIT "
              +:+ Number_toString n +:+ ";"
          else
            "SELECT * FROM " +:+ DQUOTE +:+ tableName t +:+ DQUOTE
              +:+ " LIMIT " +:+ Number_toString n +:+ ";") +:+ LF) w1
      = (Normal sample, w2)
    ∧ generateTableInfoFromTables (Some post) ds n w2 = (Normal out_post, w3)
    ∧ generateTableInfoFromTables (Some (pre ++ t :: post)) ds n w
      = (Normal
           (out_pre +:+
              (sqlCreateTableQuery t +:+
                 ((if bool_decide (options_type ds = "mysql") then
                     "SELECT * FROM `" +:+ tableName t +:+ "` LIMIT "
                       +:+ Number_toString n +:+ ";"
                   else
                     "SELECT * FROM " +:+ DQUOTE +:+ tableName t +:+ DQUOTE
                       +:+ " LIMIT " +:+ Number_toString n +:+ ";") +:+ LF)
                 +:+ columnNamesConcatString t +:+ sample)
              +:+ out_post), w3).
Proof.
  intros _. split; [apply Number_toString_numeral|].
  fold (sampleSelection ds t n). rewrite <- sqlSelectInfoQuery_statement.
  destruct (query ds (sqlSelectInfoQuery ds t n)
              (database (generateTableInfoFromTables (Some pre) ds n w).2))
    as [answer d] eqn:Hquery.
  destruct (generate_middle ds n pre t post w answer d Hquery)
    as (out_pre & out_post & Hpre & Hpost & Hall).
  eexists out_pre, _, (sampleText answer), _, out_post, _. split_and!.
  - exact Hpre.
  - rewrite sampleOf_run, Hquery. reflexivity.
  - exact Hpost.
  - exact Hall.
Qed.

Lemma generateTableInfoFromTables_statement_witness :
  - 2 ^ 53 ≤ 25 ≤ 2 ^ 53
  ∧ NilZero.int_of_string (Number_toString 25)
    = Some (Decimal.Pos (Decimal.D2 (Decimal.D5 Decimal.Nil)))
  ∧ ∃ out_pre sample out_post,
      (generateTableInfoFromTables (Some ([usersTable] ++ ordersTable :: []))
         (countingSource "mysql" usersAnswer) 25 (Build_World 0%nat [])).1
      = Normal
          (out_pre +:+
             (sqlCreateTableQuery ordersTable +:+
                ("SELECT * FROM `Orders` LIMIT 25;" +:+ LF)
                +:+ columnNamesConcatString ordersTable +:+ sample)
             +:+ out_post).
Proof.
  assert (- 2 ^ 53 ≤ 25 ≤ 2 ^ 53) as Hbound by (split; discriminate).
  split; [exact Hbound|]. split; [reflexivity|].
  destruct (generateTableInfoFromTables_statement
              (countingSource "mysql" usersAnswer) 25 [usersTable] []
              ordersTable (Build_World 0%nat []) Hbound)
    as (_ & out_pre & w1 & sample & w2 & out_post & w3 & _ & _ & _ & Hall).
  exists out_pre, sample, out_post. exact (f_equal fst Hall).
Defined.

(** C3: if the query for the sample of a table [T] of the snapshot is
    rejected, the call still completes normally; the text is the text of the
    tables before [T], then the declaration, the select statement and the
    legend of [T] with an empty sample, then the text of the tables after
    [T]; and with any data source that differs only in its answer to that
    query, for instance one that succeeds, the text of the other tables is
    the same. *)
Theorem generateTableInfoFromTables_sample_failure {DB} (ds : DataSource DB)
    (n : Z) (pre post : list SqlTable) (T : SqlTable) (w : World DB)
    (reason : JsValue) (d2 : DB) :
  let qT := sqlSelectInfoQuery ds T n in
  let w1 := (generateTableInfoFromTables (Some pre) ds n w).2 in
  let w2 := Build_World d2 (console w1 ++ [Rejection reason]) in
  query ds qT (database w1) = (Rejected reason, d2) →
  ∃ out_pre out_post w3,
    generateTableInfoFromTables (Some pre) ds n w = (Normal out_pre, w1)
    ∧ generateTableInfoFromTables (Some post) ds n w2 = (Normal out_post, w3)
    ∧ generateTableInfoFromTables (Some (pre ++ T :: post)) ds n w
      = (Normal (out_pre +:+
                   (sqlCreateTableQuery T +:+ qT
                      +:+ columnNamesConcatString T +:+ "")
                   +:+ out_post), w3)
    ∧ ∀ ds' : DataSource DB,
        options_type ds' = options_type ds →
        (∀ sql d, sql ≠ qT → query ds' sql d = query ds sql d) →
        (∀ d, (query ds' qT d).2 = (query ds qT d).2) →
        (∀ t, t ∈ pre ++ post → tableName t ≠ tableName T) →
        ∃ sample w3',
          generateTableInfoFromTables (Some (pre ++ T :: post)) ds' n w
          = (Normal (out_pre +:+
                       (sqlCreateTableQuery T +:+ qT
                          +:+ columnNamesConcatString T +:+ sample)
                       +:+ out_post), w3').
Proof.
  intros qT w1 w2 Hfail.
  destruct (generate_middle ds n pre T post w _ _ Hfail)
    as (out_pre & out_post & Hpre & Hpost & Hall).
  cbn [sampleText sampleLog] in Hpost, Hall. fold w1 w2 qT in Hpre, Hpost, Hall.
  exists out_pre, out_post, (generateTableInfoFromTables (Some post) ds n w2).2.
  split_and!; [done..|].
  intros ds' Htype Hother Hstate Hnames.
  assert (∀ t, t ∈ pre ++ post → ∀ d,
            query ds' (sqlSelectInfoQuery ds t n) d
              = query ds (sqlSelectInfoQuery ds t n) d) as Hagree.
  { intros t Hin d. apply Hother. intros Heq.
    by apply sqlSelectInfoQuery_inj, Hnames in Heq. }
  assert (∀ tables, (∀ t, t ∈ tables → t ∈ pre ++ post) →
            ∀ v v', database v = database v' →
              (generateTableInfoFromTables (Some tables) ds' n v').1
                = (generateTableInfoFromTables (Some tables) ds n v).1
              ∧ database (generateTableInfoFromTables (Some tables) ds' n v').2
                = database (generateTableInfoFromTables (Some tables) ds n v).2)
    as Hsame.
  { intros tables Hsub v v' Hdb. cbn [generateTableInfoFromTables].
    destruct (for_of_related eq ds ds' n tables Htype) with
      (acc := "") (w := v) (w' := v') as (out & u & u' & Hv & Hv' & Hu);
      [|done|].
    - intros t d d' Hin <-. by rewrite Hagree by auto.
    - by rewrite Hv, Hv'. }
  destruct (query ds' (sqlSelectInfoQuery ds' T n)
              (database (generateTableInfoFromTables (Some pre) ds' n w).2))
    as [answer' d'] eqn:Hquery'.
  destruct (generate_middle ds' n pre T post w _ _ Hquery')
    as (out_pre' & out_post' & Hpre' & Hpost' & Hall').
  rewrite (sqlSelectInfoQuery_type ds ds') in Hquery', Hall' by done.
  fold qT in Hquery', Hall'.
  destruct (Hsame pre) with (v := w) (v' := w) as [Hout1 Hdb1];
    [intros t Hin; apply elem_of_app; by left|done|].
  rewrite Hpre, Hpre' in Hout1. cbn [fst] in Hout1. injection Hout1 as ->.
  fold w1 in Hdb1.
  set (w1' := (generateTableInfoFromTables (Some pre) ds' n w).2) in *.
  set (w2' := Build_World d' (console w1' ++ sampleLog answer')) in *.
  destruct (Hsame post) with (v := w2) (v' := w2') as [Hout2 _].
  { intros t Hin. apply elem_of_app. by right. }
  { cbn [database w2 w2']. specialize (Hstate (database w1')).
    rewrite Hquery', Hdb1, Hfail in Hstate. done. }
  rewrite Hpost, Hpost' in Hout2. cbn [fst] in Hout2. injection Hout2 as ->.
  eexists _, _. exact Hall'.
Qed.

Lemma generateTableInfoFromTables_sample_failure_witness :
  query (countingSource "postgres" usersAnswer)
    (sqlSelectInfoQuery (countingSource "postgres" usersAnswer) ordersTable 2)
    (database
       (generateTableInfoFromTables (Some [usersTable])
          (countingSource "postgres" usersAnswer) 2
          (Build_World 0%nat [])).2)
  = (Rejected JsNull, 2%nat)
  ∧ ∃ out_pre out_post w3,
      generateTableInfoFromTables (Some [usersTable])
        (countingSource "postgres" usersAnswer) 2 (Build_World 0%nat [])
      = (Normal out_pre,
         (generateTableInfoFromTables (Some [usersTable])
            (countingSource "postgres" usersAnswer) 2
            (Build_World 0%nat [])).2)
      ∧ generateTableInfoFromTables (Some [usersTable])
          (countingSource "postgres" usersAnswer) 2
          (Build_World 2%nat
             (console
                (generateTableInfoFromTables (Some [usersTable])
                   (countingSource "postgres" usersAnswer) 2
                   (Build_World 0%nat [])).2 ++ [Rejection JsNull]))
        = (Normal out_post, w3)
      ∧ (generateTableInfoFromTables
           (Some ([usersTable] ++ ordersTable :: [usersTable]))
           (countingSource "postgres" usersAnswer) 2
           (Build_World 0%nat [])).1
        = Normal (out_pre +:+
                    (sqlCreateTableQuery ordersTable +:+
                       sqlSelectInfoQuery
                         (countingSource "postgres" usersAnswer)
                         ordersTable 2
                       +:+ columnNamesConcatString ordersTable +:+ "")
                    +:+ out_post).
Proof.
  split; [reflexivity|].
  destruct (generateTableInfoFromTables_sample_failure
              (countingSource "postgres" usersAnswer) 2
              [usersTable] [usersTable] ordersTable (Build_World 0%nat [])
              JsNull 2%nat eq_refl)
    as (out_pre & out_post & w3 & Hpre & Hpost & Hall & _).
  exists out_pre, out_post, w3. split; [exact Hpre|]. split; [exact Hpost|].
  exact (f_equal fst Hall).
Defined.

Lemma declarations_rest (cols : list SqlColumn) (k : nat) (acc : string) :
  foldl (λ sqlCreateTableQuery entry,
           let '(key, currentColumn) := entry in
           (if bool_decide (0 < key)%nat
            then sqlCreateTableQuery +:+ ", "
            else sqlCreateTableQuery) +:+ columnDeclaration currentColumn)
        acc (imap (pair ∘ (λ i, S k + i)%nat) cols)
  = foldl (λ acc text, acc +:+ ", " +:+ text) acc (columnDeclaration <$> cols).
Proof.
  revert k acc. induction cols as [|c cols IH]; intros k acc; [done|].
  rewrite imap_cons. cbn [foldl fmap list_fmap compose].
  rewrite bool_decide_eq_true_2 by lia.
  rewrite <- app_assoc_s, <- IH with (k := S k).
  f_equal. apply imap_ext. intros i x _. simpl. f_equal. lia.
Qed.

Lemma sqlCreateTableQuery_commaSeparated (t : SqlTable) :
  sqlCreateTableQuery t =
    "CREATE TABLE " +:+ tableName t +:+ " (" +:+ LF
      +:+ commaSeparated (columnDeclaration <$> columns t) +:+ ") " +:+ LF.
Proof.
  unfold sqlCreateTableQuery. destruct (columns t) as [|c cols].
  - cbn [imap foldl fmap list_fmap commaSeparated].
    by rewrite !app_assoc_s, app_empty_r.
  - rewrite imap_cons. cbn [foldl fmap list_fmap commaSeparated].
    rewrite bool_decide_eq_false_2 by lia.
    rewrite (declarations_rest cols 0).
    generalize (columnDeclaration <$> cols) as texts.
    generalize (columnDeclaration c) as text.
    intros text texts. revert text.
    induction texts as [|x texts IH]; intros text.
    + cbn [foldl]. by rewrite !app_assoc_s.
    + cbn [foldl].
      specialize (IH (text +:+ ", " +:+ x)).
      rewrite <- IH. do 2 f_equal. by rewrite !app_assoc_s.
Qed.

(** C10: with [undefined] for the tables the call returns the empty string
    and touches nothing; and a column without [dataType] is declared with
    the text [undefined] between its name and its qualifier, in the
    declaration that opens the block of its table. *)
Theorem generateTableInfoFromTables_undefined {DB} (ds : DataSource DB)
    (n : Z) (w : World DB) :
  generateTableInfoFromTables None ds n w = (Normal "", w)
  ∧ (∀ name nullable,
       columnDeclaration
         {| columnName := name; dataType := None; isNullable := nullable |}
       = name +:+ " undefined "
           +:+ (if default false nullable then "" else "NOT NULL"))
  ∧ (∀ t, sqlCreateTableQuery t
          = "CREATE TABLE " +:+ tableName t +:+ " (" +:+ LF
              +:+ commaSeparated (columnDeclaration <$> columns t)
              +:+ ") " +:+ LF)
  ∧ (∀ t tables, ∃ rest,
       (generateTableInfoFromTables (Some (t :: tables)) ds n w).1
       = Normal (sqlCreateTableQuery t +:+ rest))
  ∧ (generateTableInfoFromTables
       (Some [ {| tableName := "Orders";
                  columns := [ {| columnName := "total"; dataType := None;
                                  isNullable := None |} ] |} ])
       (countingSource "sqlite" usersAnswer) 1 (Build_World 0%nat [])).1
    = Normal ("CREATE TABLE Orders (" +:+ LF
                +:+ "total undefined NOT NULL) " +:+ LF
                +:+ "SELECT * FROM " +:+ DQUOTE +:+ "Orders" +:+ DQUOTE
                +:+ " LIMIT 1;" +:+ LF
                +:+ " total" +:+ LF).
Proof.
  split_and!.
  - done.
  - done.
  - apply sqlCreateTableQuery_commaSeparated.
  - intros t tables.
    destruct (query ds (sqlSelectInfoQuery ds t n)
                (database (generateTableInfoFromTables (Some []) ds n w).2))
      as [answer d] eqn:Hquery.
    destruct (generate_middle ds n [] t tables w answer d Hquery)
      as (out_pre & out_post & Hpre & _ & Hall).
    injection Hpre as <-. eexists. rewrite app_nil_l in Hall.
    rewrite Hall. cbn [fst]. f_equal.
    change ("" +:+ ?s) with s. rewrite <- !app_assoc_s. reflexivity.
  - by vm_compute.
Qed.

(** ** getTableAndColumnsName *)

(** Finds an occurrence in a closed text by computation. *)
Ltac find_mention :=
  lazymatch goal with
  | |- mentions ?needle ?text =>
      let found := eval vm_compute in (String.index 0 needle text) in
      lazymatch found with
      | Some ?i =>
          exists (String.substring 0 i text),
            (String.substring (i + String.length needle)
               (String.length text) text);
          vm_compute; reflexivity
      end
  end.

Section IntrospectionFacts.
Context {DB : Type} (asRawResults : JsValue → list RawResultTableAndColumn).
Implicit Types (ds : DataSource DB) (w : World DB).

Lemma listWith_run ds sql w :
  (∃ tables, (listWith asRawResults ds sql w).1 = Normal tables)
  ∨ (∃ reason, (listWith asRawResults ds sql w).1 = Throw (Rejection reason)).
Proof.
  unfold listWith, bind, await_query, ret.
  destruct (query ds sql (database w)) as [[value|reason] d]; simpl; eauto.
Qed.

Lemma getTableAndColumnsName_supported ds :
  options_type ds ∈ supportedDialects →
  getTableAndColumnsName asRawResults ds =
    listWith asRawResults ds
      (if bool_decide (options_type ds = "postgres") then postgresSql
       else if bool_decide (options_type ds = "sqlite") then sqliteSql
       else mysqlSql (options_database ds)).
Proof.
  unfold supportedDialects, getTableAndColumnsName.
  rewrite !elem_of_cons, elem_of_nil. intros [->|[->|[->|[]]]]; done.
Qed.

(** C2: for a dialect outside postgres, sqlite and mysql the call throws
    the error [Database type not implemented yet] without a query to the
    data source, so it returns no snapshot; for a dialect among the three
    it does not throw an error of this file: it returns a snapshot or
    rethrows the rejection of the data source. *)
Theorem getTableAndColumnsName_dialect ds w :
  (options_type ds ∉ supportedDialects →
     getTableAndColumnsName asRawResults ds w
     = (Throw (Error "Database type not implemented yet"), w))
  ∧ (options_type ds ∈ supportedDialects →
     (∀ message, (getTableAndColumnsName asRawResults ds w).1
                 ≠ Throw (Error message))
     ∧ ((∃ tables, (getTableAndColumnsName asRawResults ds w).1
                   = Normal tables)
        ∨ (∃ reason, (getTableAndColumnsName asRawResults ds w).1
                     = Throw (Rejection reason)))).
Proof.
  split.
  - unfold supportedDialects, getTableAndColumnsName.
    rewrite !not_elem_of_cons. intros (? & ? & ? & _).
    by rewrite !bool_decide_eq_false_2 by done.
  - intros Hin. rewrite getTableAndColumnsName_supported by done.
    destruct (listWith_run ds
                (if bool_decide (options_type ds = "postgres")
                 then postgresSql
                 else if bool_decide (options_type ds = "sqlite")
                      then sqliteSql
                      else mysqlSql (options_database ds)) w)
      as [[tables Heq]|[reason Heq]]; rewrite Heq; split; eauto; done.
Qed.

(** C7, as amended: for each of the three dialects the statement sent to
    the data source is not empty, and it contains the name of a catalog
    object of the database: the statement of postgres contains the text
    [information_schema.tables], the statement of sqlite the text
    [sqlite_master], the statement of mysql the text
    [INFORMATION_SCHEMA.COLUMNS]. *)
Theorem getTableAndColumnsName_catalog_query ds :
  options_type ds ∈ supportedDialects →
  ∃ sql,
    getTableAndColumnsName asRawResults ds = listWith asRawResults ds sql
    ∧ sql ≠ ""
    ∧ (∃ object, object ∈ systemCatalogObjects ∧ mentions object sql)
    ∧ (options_type ds = "postgres" →
         sql = postgresSql ∧ mentions "information_schema.tables" sql)
    ∧ (options_type ds = "sqlite" →
         sql = sqliteSql ∧ mentions "sqlite_master" sql)
    ∧ (options_type ds = "mysql" →
         sql = mysqlSql (options_database ds)
         ∧ mentions "INFORMATION_SCHEMA.COLUMNS" sql).
Proof.
  intros Hin. eexists. split; [by apply getTableAndColumnsName_supported|].
  revert Hin. unfold supportedDialects.
  rewrite !elem_of_cons, elem_of_nil. intros [->|[->|[->|[]]]]; simpl.
  - split_and!; try done.
    + exists "information_schema.tables". split; [|find_mention].
      unfold systemCatalogObjects. rewrite !elem_of_cons. tauto.
    + intros _. split; [done|find_mention].
  - split_and!; try done.
    + exists "sqlite_master". split; [|find_mention].
      unfold systemCatalogObjects. rewrite !elem_of_cons. tauto.
    + intros _. split; [done|find_mention].
  - assert (mentions "INFORMATION_SCHEMA.COLUMNS"
              (mysqlSql (options_database ds))) as Hcatalog.
    { exists ("SELECT TABLE_NAME AS table_name, "
                +:+ "COLUMN_NAME AS column_name, DATA_TYPE AS data_type, "
                +:+ "IS_NULLABLE AS is_nullable FROM "),
        (" WHERE TABLE_SCHEMA = '"
           +:+ template (options_database ds) +:+ "';").
      reflexivity. }
    split_and!; try done.
    exists "INFORMATION_SCHEMA.COLUMNS". split; [|done].
    unfold systemCatalogObjects. rewrite !elem_of_cons. tauto.
Qed.

End IntrospectionFacts.

Lemma getTableAndColumnsName_dialect_witness :
  (("oracle" ∉ supportedDialects)
   ∧ getTableAndColumnsName (λ _, []) (countingSource "oracle" usersAnswer)
       (Build_World 0%nat [])
     = (Throw (Error "Database type not implemented yet"),
        Build_World 0%nat []))
  ∧ ("sqlite" ∈ supportedDialects
     ∧ ∀ message,
         (getTableAndColumnsName (λ _, [])
            (countingSource "sqlite" usersAnswer) (Build_World 0%nat [])).1
         ≠ Throw (Error message)).
Proof.
  assert ("oracle" ∉ supportedDialects) as Hout.
  { unfold supportedDialects. rewrite !not_elem_of_cons.
    split_and!; [discriminate..|apply not_elem_of_nil]. }
  assert ("sqlite" ∈ supportedDialects) as Hin.
  { unfold supportedDialects. rewrite !elem_of_cons. tauto. }
  split; (split; [assumption|]).
  - exact (proj1 (getTableAndColumnsName_dialect (λ _, [])
                    (countingSource "oracle" usersAnswer)
                    (Build_World 0%nat [])) Hout).
  - exact (proj1 (proj2 (getTableAndColumnsName_dialect (λ _, [])
                           (countingSource "sqlite" usersAnswer)
                           (Build_World 0%nat [])) Hin)).
Defined.

Lemma getTableAndColumnsName_catalog_query_witness :
  "mysql" ∈ supportedDialects
  ∧ ∃ sql,
      getTableAndColumnsName (λ _, []) (countingSource "mysql" usersAnswer)
      = listWith (λ _, []) (countingSource "mysql" usersAnswer) sql
      ∧ sql ≠ ""
      ∧ (∃ object, object ∈ systemCatalogObjects ∧ mentions object sql).
Proof.
  assert ("mysql" ∈ supportedDialects) as Hin.
  { unfold supportedDialects. rewrite !elem_of_cons. tauto. }
  split; [exact Hin|].
  destruct (getTableAndColumnsName_catalog_query (λ _, [])
              (countingSource "mysql" usersAnswer) Hin)
    as (sql & Hsql & Hne & Hobject & _).
  exists sql. split; [exact Hsql|]. split; [exact Hne|exact Hobject].
Defined.

(** C7, as the specification states it, fails: the statement selected for
    sqlite is not empty, but it names [sqlite_master], the schema table of
    the database. *)
Lemma getTableAndColumnsName_sqlite_catalog_claimed :
  "sqlite" ∈ supportedDialects
  ∧ getTableAndColumnsName (λ _, []) (countingSource "sqlite" usersAnswer)
    = listWith (λ _, []) (countingSource "sqlite" usersAnswer) sqliteSql
  ∧ ¬ (sqliteSql ≠ ""
       ∧ ∀ object, object ∈ systemCatalogObjects → ¬ mentions object sqliteSql).
Proof.
  split_and!.
  - unfold supportedDialects. rewrite !elem_of_cons. tauto.
  - reflexivity.
  - intros [_ Hnone]. apply (Hnone "sqlite_master"); [|find_mention].
    unfold systemCatalogObjects. rewrite !elem_of_cons. tauto.
Qed.

(** * Further properties *)

(** ** verifyListTablesExistInDatabase and its two callers *)

Lemma verifyEach_app names l1 l2 prefix :
  verifyEach names (l1 ++ l2) prefix =
    match verifyEach names l1 prefix with
    | Normal _ => verifyEach names l2 prefix
    | Throw e => Throw e
    end.
Proof.
  induction l1 as [|x l1 IH]; simpl; [done|].
  by case_bool_decide.
Qed.

Lemma verifyList_verifyEach tables listTables prefix :
  verifyListTablesExistInDatabase tables listTables prefix
  = verifyEach (tableName <$> tables) listTables prefix.
Proof.
  unfold verifyListTablesExistInDatabase.
  destruct listTables; [done|].
  by rewrite bool_decide_eq_true_2 by (simpl; lia).
Qed.

Lemma verifyList_first_missing tables pre name post prefix :
  (∀ x, x ∈ pre → x ∈ tableName <$> tables) →
  name ∉ tableName <$> tables →
  verifyListTablesExistInDatabase tables (pre ++ name :: post) prefix
  = Throw (Error (notFoundMessage prefix name)).
Proof.
  intros Hpre Hname. rewrite verifyList_verifyEach, verifyEach_app.
  apply verifyEach_Normal with (prefix := prefix) in Hpre. rewrite Hpre.
  simpl. by rewrite bool_decide_eq_false_2.
Qed.

(** X1: the error names the first missing table, in the order of the list:
    when the names before it are all tables of the snapshot, the message is
    about it, whatever follows it in the list. *)
Theorem verifyListTablesExistInDatabase_first_missing
    (tablesFromDatabase : list SqlTable) (pre post : list string)
    (name errorPrefixMsg : string) :
  (∀ x, x ∈ pre → x ∈ tableName <$> tablesFromDatabase) →
  name ∉ tableName <$> tablesFromDatabase →
  verifyListTablesExistInDatabase tablesFromDatabase (pre ++ name :: post)
    errorPrefixMsg
  = Throw (Error (errorPrefixMsg +:+ " the table " +:+ name
                    +:+ " was not found in the database")).
Proof. apply verifyList_first_missing. Qed.

Lemma verifyListTablesExistInDatabase_first_missing_witness :
  (∀ x, x ∈ ["Users"] → x ∈ tableName <$> [usersTable; ordersTable])
  ∧ ("Items" ∉ tableName <$> [usersTable; ordersTable])
  ∧ verifyListTablesExistInDatabase [usersTable; ordersTable]
      (["Users"] ++ "Items" :: ["Orders"; "Carts"]) "Include:"
    = Throw (Error ("Include:" +:+ " the table " +:+ "Items"
                      +:+ " was not found in the database")).
Proof.
  assert (∀ x, x ∈ ["Users"] → x ∈ tableName <$> [usersTable; ordersTable])
    as Hpre.
  { intros x ->%list_elem_of_singleton. by left. }
  assert ("Items" ∉ tableName <$> [usersTable; ordersTable]) as Hname.
  { simpl. rewrite !not_elem_of_cons.
    split_and!; [discriminate..|apply not_elem_of_nil]. }
  split; [exact Hpre|]. split; [exact Hname|].
  exact (verifyListTablesExistInDatabase_first_missing
           [usersTable; ordersTable] ["Users"] ["Orders"; "Carts"]
           "Items" "Include:" Hpre Hname).
Defined.

(** X2: the two callers accept the same lists; on a list whose first
    missing table is [name] the one throws the message that starts with
    [Include tables not found in database:] and the other the message that
    starts with [Ignore tables not found in database:], both about
    [name]. *)
Theorem verifyInclude_verifyIgnore_messages
    (tablesFromDatabase : list SqlTable) (pre post : list string)
    (name : string) :
  (∀ x, x ∈ pre → x ∈ tableName <$> tablesFromDatabase) →
  name ∉ tableName <$> tablesFromDatabase →
  verifyIncludeTablesExistInDatabase tablesFromDatabase
    (pre ++ name :: post)
  = Throw (Error ("Include tables not found in database: the table "
                    +:+ name +:+ " was not found in the database"))
  ∧ verifyIgnoreTablesExistInDatabase tablesFromDatabase
      (pre ++ name :: post)
    = Throw (Error ("Ignore tables not found in database: the table "
                      +:+ name +:+ " was not found in the database"))
  ∧ (verifyIncludeTablesExistInDatabase tablesFromDatabase pre = Normal ()
     ∧ verifyIgnoreTablesExistInDatabase tablesFromDatabase pre = Normal ()).
Proof.
  intros Hpre Hname.
  unfold verifyIncludeTablesExistInDatabase, verifyIgnoreTablesExistInDatabase.
  rewrite !verifyList_first_missing by done.
  rewrite !verifyList_verifyEach.
  split_and!; try reflexivity; by apply verifyEach_Normal.
Qed.

Lemma verifyInclude_verifyIgnore_messages_witness :
  (∀ x, x ∈ ["Users"] → x ∈ tableName <$> [usersTable; ordersTable])
  ∧ ("Items" ∉ tableName <$> [usersTable; ordersTable])
  ∧ verifyIncludeTablesExistInDatabase [usersTable; ordersTable]
      (["Users"] ++ "Items" :: ["Carts"])
    = Throw (Error ("Include tables not found in database: the table "
                      +:+ "Items" +:+ " was not found in the database")).
Proof.
  assert (∀ x, x ∈ ["Users"] → x ∈ tableName <$> [usersTable; ordersTable])
    as Hpre.
  { intros x ->%list_elem_of_singleton. by left. }
  assert ("Items" ∉ tableName <$> [usersTable; ordersTable]) as Hname.
  { simpl. rewrite !not_elem_of_cons.
    split_and!; [discriminate..|apply not_elem_of_nil]. }
  split; [exact Hpre|]. split; [exact Hname|].
  exact (proj1 (verifyInclude_verifyIgnore_messages
                  [usersTable; ordersTable] ["Users"] ["Carts"] "Items"
                  Hpre Hname)).
Defined.

(** X3: a list made of two parts is accepted exactly when both parts are,
    and an error thrown for the first part is the error thrown for the
    whole list. *)
Theorem verifyListTablesExistInDatabase_app
    (tablesFromDatabase : list SqlTable) (l1 l2 : list string)
    (errorPrefixMsg : string) :
  (verifyListTablesExistInDatabase tablesFromDatabase (l1 ++ l2)
     errorPrefixMsg = Normal ()
   ↔ verifyListTablesExistInDatabase tablesFromDatabase l1 errorPrefixMsg
       = Normal ()
     ∧ verifyListTablesExistInDatabase tablesFromDatabase l2 errorPrefixMsg
       = Normal ())
  ∧ (∀ e, verifyListTablesExistInDatabase tablesFromDatabase l1
            errorPrefixMsg = Throw e →
          verifyListTablesExistInDatabase tablesFromDatabase (l1 ++ l2)
            errorPrefixMsg = Throw e).
Proof.
  rewrite !verifyList_verifyEach, verifyEach_app.
  destruct (verifyEach _ l1 _) as [[]|e]; split.
  - tauto.
  - intros e [=].
  - split; [done|]. intros [[=] _].
  - done.
Qed.

(** ** formatToSqlTable *)

Lemma columnCount_app tables tables' :
  columnCount (tables ++ tables') = (columnCount tables + columnCount tables')%nat.
Proof. apply sum_list_with_app. Qed.

Lemma columnCount_alter_push c (i : nat) tables t :
  tables !! i = Some t →
  columnCount (alter (pushColumn c) i tables) = S (columnCount tables).
Proof.
  revert i. induction tables as [|t' tables IH]; intros [|i] Hi;
    simplify_eq/=.
  - unfold columnCount. simpl. rewrite length_app. simpl. lia.
  - unfold columnCount in *. simpl.
    change (list_alter (pushColumn c) i tables)
      with (alter (pushColumn c) i tables).
    rewrite (IH i) by done. lia.
Qed.

Lemma columnCount_formatStep tables r :
  columnCount (formatStep tables r) = S (columnCount tables).
Proof.
  unfold formatStep.
  destruct (list_find _ _) as [[i t]|] eqn:Hfind.
  - apply list_find_Some in Hfind as (Hi & _).
    by eapply columnCount_alter_push.
  - rewrite columnCount_app. unfold columnCount. simpl. lia.
Qed.

Lemma columnCount_foldl tables rows :
  columnCount (foldl formatStep tables rows)
  = (columnCount tables + length rows)%nat.
Proof.
  revert tables. induction rows as [|r rows IH]; intros tables; simpl.
  - lia.
  - rewrite IH, columnCount_formatStep. lia.
Qed.

Lemma formatToSqlTable_nonempty (rows : list RawResultTableAndColumn) t :
  t ∈ formatToSqlTable rows → columns t ≠ [].
Proof.
  rewrite formatToSqlTable_grouped.
  intros (name & -> & Hin)%list_elem_of_fmap.
  apply elem_of_firstOccurrences, list_elem_of_fmap in Hin
    as (r & -> & Hr).
  simpl. unfold columnsOf. intros Hnil.
  apply fmap_nil_inv in Hnil.
  by apply (filter_nil_not_elem_of _ _ r Hnil eq_refl).
Qed.

(** X4: no row is lost and none is counted twice: the columns of the
    snapshot are as many as the rows; and no table of the snapshot is
    without a column. *)
Theorem formatToSqlTable_column_count (rows : list RawResultTableAndColumn) :
  columnCount (formatToSqlTable rows) = length rows
  ∧ ∀ t, t ∈ formatToSqlTable rows → columns t ≠ [].
Proof.
  split.
  - unfold formatToSqlTable. by rewrite columnCount_foldl.
  - intros t. apply formatToSqlTable_nonempty.
Qed.

Lemma firstOccurrences_app (a b : list string) :
  firstOccurrences (a ++ b)
  = firstOccurrences a ++ filter (λ x, x ∉ a) (firstOccurrences b).
Proof.
  induction a as [|x a IH]; simpl.
  - symmetry. induction (firstOccurrences b) as [|y l IHl]; [done|].
    rewrite filter_cons_True by apply not_elem_of_nil. by f_equal.
  - f_equal. rewrite IH, filter_app. f_equal.
    rewrite list_filter_filter. apply list_filter_iff.
    intros y. rewrite not_elem_of_cons. tauto.
Qed.

Lemma firstOccurrences_app_disjoint (a b : list string) :
  (∀ x, x ∈ a → x ∉ b) →
  firstOccurrences (a ++ b) = firstOccurrences a ++ firstOccurrences b.
Proof.
  intros Hdisj. rewrite firstOccurrences_app. f_equal.
  assert (∀ l : list string, (∀ y, y ∈ l → y ∈ b) →
            filter (λ x, x ∉ a) l = l) as Hid.
  { induction l as [|y l IHl]; intros Hl; [done|].
    rewrite filter_cons_True.
    - f_equal. apply IHl. intros z Hz. apply Hl. by right.
    - intros Hy. apply (Hdisj y Hy), Hl. by left. }
  apply Hid. intros y. by rewrite elem_of_firstOccurrences.
Qed.

Lemma columnsOf_app rows rows' name :
  columnsOf (rows ++ rows') name = columnsOf rows name ++ columnsOf rows' name.
Proof. unfold columnsOf. by rewrite filter_app, fmap_app. Qed.

(** X5: rows of other tables after the rows of a snapshot only add tables:
    when no table name of [rows1] occurs in [rows2], the snapshot of
    [rows1 ++ rows2] is the snapshot of [rows1] followed by the snapshot of
    [rows2]. *)
Theorem formatToSqlTable_app_disjoint
    (rows1 rows2 : list RawResultTableAndColumn) :
  (∀ r1 r2, r1 ∈ rows1 → r2 ∈ rows2 → table_name r1 ≠ table_name r2) →
  formatToSqlTable (rows1 ++ rows2)
  = formatToSqlTable rows1 ++ formatToSqlTable rows2.
Proof.
  intros Hdisj. rewrite !formatToSqlTable_grouped.
  rewrite fmap_app, firstOccurrences_app_disjoint, fmap_app.
  - f_equal; apply list_fmap_ext; intros i name Hname;
      apply list_elem_of_lookup_2, elem_of_firstOccurrences,
        list_elem_of_fmap in Hname as (r & -> & Hr);
      unfold tableOf; f_equal; rewrite columnsOf_app.
    + rewrite (columnsOf_absent rows2), app_nil_r; [done|].
      intros (r2 & Heq & Hr2)%list_elem_of_fmap. by eapply Hdisj.
    + rewrite (columnsOf_absent rows1); [done|].
      intros (r1 & Heq & Hr1)%list_elem_of_fmap. by eapply Hdisj.
  - intros x (r1 & -> & Hr1)%list_elem_of_fmap
      (r2 & Heq & Hr2)%list_elem_of_fmap. by eapply Hdisj.
Qed.

Lemma formatToSqlTable_app_disjoint_witness :
  (∀ r1 r2, r1 ∈ [rowT1a; rowT1b] → r2 ∈ [rowT2c] →
     table_name r1 ≠ table_name r2)
  ∧ formatToSqlTable ([rowT1a; rowT1b] ++ [rowT2c])
    = formatToSqlTable [rowT1a; rowT1b] ++ formatToSqlTable [rowT2c].
Proof.
  assert (∀ r1 r2, r1 ∈ [rowT1a; rowT1b] → r2 ∈ [rowT2c] →
            table_name r1 ≠ table_name r2) as Hdisj.
  { intros r1 r2 Hr1 ->%list_elem_of_singleton.
    rewrite !elem_of_cons, elem_of_nil in Hr1.
    destruct Hr1 as [->|[->|[]]]; discriminate. }
  split; [exact Hdisj|].
  exact (formatToSqlTable_app_disjoint [rowT1a; rowT1b] [rowT2c] Hdisj).
Defined.

(** X6: the snapshot does not depend on how the rows of different tables
    are interleaved: two lists of rows with the same first occurrences of
    table names and, table by table, the same rows in the same order, give
    the same snapshot. *)
Theorem formatToSqlTable_interleaving
    (rows1 rows2 : list RawResultTableAndColumn) :
  firstOccurrences (table_name <$> rows1)
    = firstOccurrences (table_name <$> rows2) →
  (∀ name, filter (λ r, table_name r = name) rows1
           = filter (λ r, table_name r = name) rows2) →
  formatToSqlTable rows1 = formatToSqlTable rows2.
Proof.
  intros Hnames Hrows. rewrite !formatToSqlTable_grouped, Hnames.
  apply list_fmap_ext. intros i name _.
  unfold tableOf, columnsOf. by rewrite Hrows.
Qed.

Lemma formatToSqlTable_interleaving_witness :
  firstOccurrences (table_name <$> [rowT1a; rowT2c; rowT1b])
    = firstOccurrences (table_name <$> [rowT1a; rowT1b; rowT2c])
  ∧ (∀ name, filter (λ r, table_name r = name) [rowT1a; rowT2c; rowT1b]
             = filter (λ r, table_name r = name) [rowT1a; rowT1b; rowT2c])
  ∧ formatToSqlTable [rowT1a; rowT2c; rowT1b]
    = formatToSqlTable [rowT1a; rowT1b; rowT2c].
Proof.
  assert (firstOccurrences (table_name <$> [rowT1a; rowT2c; rowT1b])
          = firstOccurrences (table_name <$> [rowT1a; rowT1b; rowT2c]))
    as Hnames by reflexivity.
  assert (∀ name, filter (λ r, table_name r = name) [rowT1a; rowT2c; rowT1b]
                  = filter (λ r, table_name r = name)
                      [rowT1a; rowT1b; rowT2c]) as Hrows.
  { intros name. rewrite !filter_cons, !filter_nil. simpl.
    destruct (decide ("T1" = name)), (decide ("T2" = name));
      [congruence|done..]. }
  split; [exact Hnames|]. split; [exact Hrows|].
  exact (formatToSqlTable_interleaving _ _ Hnames Hrows).
Defined.

(** X7: a list of names is accepted against the snapshot of the rows
    exactly when each name is the table name of some row. *)
Theorem verifyListTablesExistInDatabase_formatToSqlTable
    (rows : list RawResultTableAndColumn) (listTables : list string)
    (errorPrefixMsg : string) :
  verifyListTablesExistInDatabase (formatToSqlTable rows) listTables
    errorPrefixMsg = Normal ()
  ↔ ∀ name, name ∈ listTables → ∃ r, r ∈ rows ∧ table_name r = name.
Proof.
  rewrite verifyList_verifyEach, verifyEach_Normal.
  rewrite formatToSqlTable_grouped, <- list_fmap_compose.
  assert (∀ name, name ∈ (tableName ∘ tableOf rows)
                           <$> firstOccurrences (table_name <$> rows)
                  ↔ ∃ r, r ∈ rows ∧ table_name r = name) as Hiff.
  { intros name. rewrite list_fmap_id, elem_of_firstOccurrences.
    rewrite list_elem_of_fmap.
    split; [intros (r & -> & Hr)|intros (r & Hr & <-)]; eauto. }
  split; intros H name Hin; apply Hiff; auto.
Qed.

(** ** formatSqlResponseToSimpleTableString *)

Lemma Object_values_nullish (row : JsValue) :
  Object_values row = None ↔ isNullish row = true.
Proof. destruct row; simpl; split; congruence. Qed.

Lemma appendRows_lines (rows : list JsValue) (acc : string) :
  (∀ row, row ∈ rows → isNullish row = false) →
  appendRows rows acc = Normal (acc +:+ concatS (rowLine <$> rows)).
Proof.
  revert acc. induction rows as [|row rows IH]; intros acc Hrows; simpl.
  - by rewrite app_empty_r.
  - assert (isNullish row = false) as Hrow by (apply Hrows; by left).
    destruct (Object_values row) as [values|] eqn:Hvalues.
    + rewrite IH by (intros r Hr; apply Hrows; by right).
      unfold rowLine. rewrite Hvalues. simpl.
      by rewrite <- !app_assoc_s.
    + apply Object_values_nullish in Hvalues. congruence.
Qed.

Lemma appendRows_nullish (rows : list JsValue) (acc : string) :
  (∃ row, row ∈ rows ∧ isNullish row = true) →
  appendRows rows acc = Throw TypeError.
Proof.
  revert acc. induction rows as [|row rows IH]; intros acc (r & Hin & Hr).
  - by apply elem_of_nil in Hin.
  - simpl. destruct (Object_values row) as [values|] eqn:Hvalues; [|done].
    apply elem_of_cons in Hin as [->|Hin].
    + apply Object_values_nullish in Hr. congruence.
    + apply IH. eauto.
Qed.

Lemma format_array (rows : list JsValue) :
  formatSqlResponseToSimpleTableString (JsArray rows) = appendRows rows "".
Proof.
  unfold formatSqlResponseToSimpleTableString. simpl.
  destruct rows; [done|]. by rewrite bool_decide_eq_false_2.
Qed.

Lemma format_not_array (rawResult : JsValue) :
  Array_isArray rawResult = false →
  formatSqlResponseToSimpleTableString rawResult = Normal "".
Proof.
  intros Hnot. unfold formatSqlResponseToSimpleTableString.
  rewrite Hnot. simpl. by rewrite orb_true_r.
Qed.

Lemma all_or_some_nullish (rows : list JsValue) :
  (∀ row, row ∈ rows → isNullish row = false)
  ∨ (∃ row, row ∈ rows ∧ isNullish row = true).
Proof.
  induction rows as [|row rows [IH|(r & Hin & Hr)]].
  - left. intros row Hin. by apply elem_of_nil in Hin.
  - destruct (isNullish row) eqn:Hrow.
    + right. exists row. split; [by left|done].
    + left. intros r [->|Hin]%elem_of_cons; auto.
  - right. exists r. split; [by right|done].
Qed.

Lemma concatS_app (l k : list string) :
  concatS (l ++ k) = concatS l +:+ concatS k.
Proof.
  induction l as [|x l IH]; simpl; [done|]. by rewrite IH, app_assoc_s.
Qed.

Lemma plainRow_not_nullish (row : JsValue) :
  plainRow row = true → isNullish row = false.
Proof. by destruct row. Qed.

(** X8: for an array of rows that are objects or arrays of plain values
    (numbers within the bound, no object with an own [toString] property),
    the text is one line per row, in the order of the rows; a line is, for
    each value of the row, a space and the string form of the value, then a
    line feed. *)
Theorem formatSqlResponseToSimpleTableString_lines (rows : list JsValue) :
  (∀ row, row ∈ rows → plainRow row = true) →
  formatSqlResponseToSimpleTableString (JsArray rows)
    = Normal (concatS (rowLine <$> rows))
  ∧ ∀ row, row ∈ rows →
      rowLine row
      = concatS ((λ value, " " +:+ ToString value)
                   <$> default [] (Object_values row)) +:+ LF.
Proof.
  intros Hrows. split.
  - rewrite format_array, appendRows_lines; [done|].
    intros row Hin. by apply plainRow_not_nullish, Hrows.
  - intros row _. unfold rowLine, rowString. f_equal.
    generalize (default [] (Object_values row)) as values.
    assert (∀ (values : list JsValue) acc,
              foldl (λ completeString columnValue,
                       completeString +:+ " " +:+ ToString columnValue)
                    acc values
              = acc +:+ concatS ((λ value, " " +:+ ToString value)
                                   <$> values)) as Hfold.
    { induction values as [|v values IH]; intros acc; simpl.
      - by rewrite app_empty_r.
      - rewrite IH. by rewrite <- !app_assoc_s. }
    intros values. by rewrite Hfold.
Qed.

Lemma formatSqlResponseToSimpleTableString_lines_witness :
  (∀ row, row ∈ Array_elements usersRows → plainRow row = true)
  ∧ formatSqlResponseToSimpleTableString
      (JsArray (Array_elements usersRows))
    = Normal (" 1 a" +:+ LF +:+ " 2 b" +:+ LF).
Proof.
  assert (∀ row, row ∈ Array_elements usersRows → plainRow row = true)
    as Hrows.
  { intros row Hin. simpl in Hin.
    rewrite !elem_of_cons, elem_of_nil in Hin.
    destruct Hin as [->|[->|[]]]; reflexivity. }
  split; [exact Hrows|].
  exact (proj1 (formatSqlResponseToSimpleTableString_lines
                  (Array_elements usersRows) Hrows)).
Defined.

Lemma format_throw_kind (rawResult : JsValue) (e : Thrown) :
  formatSqlResponseToSimpleTableString rawResult = Throw e → e = TypeError.
Proof.
  assert (Array_isArray rawResult = false ∨
          ∃ rows, rawResult = JsArray rows) as [Hnot|[rows ->]].
  { destruct rawResult; eauto. }
  - by rewrite format_not_array.
  - rewrite format_array.
    destruct (all_or_some_nullish rows) as [Hall|Hsome].
    + by rewrite appendRows_lines.
    + rewrite appendRows_nullish by done. congruence.
Qed.

(** X9: on an answer whose elements are [undefined], [null] or rows of
    plain values, the function throws exactly when the answer is an array
    with an [undefined] or [null] element, and what it throws is the
    [TypeError] of [Object.values]; an answer that is not an array gives
    the empty text. *)
Theorem formatSqlResponseToSimpleTableString_throws (rawResult : JsValue) :
  (∀ row, row ∈ Array_elements rawResult →
     isNullish row = true ∨ plainRow row = true) →
  (formatSqlResponseToSimpleTableString rawResult = Throw TypeError
   ↔ ∃ row, row ∈ Array_elements rawResult ∧ isNullish row = true)
  ∧ (∀ e, formatSqlResponseToSimpleTableString rawResult = Throw e →
          e = TypeError)
  ∧ (Array_isArray rawResult = false →
     formatSqlResponseToSimpleTableString rawResult = Normal "").
Proof.
  intros _.
  assert (Array_isArray rawResult = false ∨
          ∃ rows, rawResult = JsArray rows) as [Hnot|[rows ->]].
  { destruct rawResult; eauto. }
  - rewrite format_not_array by done. split_and!; [|done..].
    split; [done|]. intros (row & Hin & _).
    destruct rawResult; try (by apply elem_of_nil in Hin). done.
  - rewrite format_array. simpl.
    destruct (all_or_some_nullish rows) as [Hall|Hsome].
    + rewrite appendRows_lines by done. split_and!; [|done..].
      split; [done|]. intros (row & Hin & Hrow).
      rewrite Hall in Hrow by done. done.
    + rewrite appendRows_nullish by done. split_and!; [done| |done].
      by intros e [= <-].
Qed.

Lemma formatSqlResponseToSimpleTableString_throws_witness :
  (∀ row, row ∈ Array_elements
                  (JsArray [JsObject [("id", JsNumber 1)]; JsNull]) →
     isNullish row = true ∨ plainRow row = true)
  ∧ formatSqlResponseToSimpleTableString
      (JsArray [JsObject [("id", JsNumber 1)]; JsNull])
    = Throw TypeError.
Proof.
  assert (∀ row, row ∈ Array_elements
                         (JsArray [JsObject [("id", JsNumber 1)]; JsNull]) →
            isNullish row = true ∨ plainRow row = true) as Hrows.
  { intros row Hin. simpl in Hin.
    rewrite !elem_of_cons, elem_of_nil in Hin.
    destruct Hin as [->|[->|[]]]; [right|left]; reflexivity. }
  split; [exact Hrows|].
  apply (proj1 (formatSqlResponseToSimpleTableString_throws
                  (JsArray [JsObject [("id", JsNumber 1)]; JsNull]) Hrows)).
  exists JsNull. split; [|reflexivity]. right. left.
Defined.

(** X10: several result sets in one array are formatted as one after the
    other: for rows that are objects or arrays of plain values, the text of
    [rows1 ++ rows2] is the text of [rows1] followed by the text of
    [rows2]. *)
Theorem formatSqlResponseToSimpleTableString_app (rows1 rows2 : list JsValue) :
  (∀ row, row ∈ rows1 ++ rows2 → plainRow row = true) →
  ∃ text1 text2,
    formatSqlResponseToSimpleTableString (JsArray rows1) = Normal text1
    ∧ formatSqlResponseToSimpleTableString (JsArray rows2) = Normal text2
    ∧ formatSqlResponseToSimpleTableString (JsArray (rows1 ++ rows2))
      = Normal (text1 +:+ text2).
Proof.
  intros Hrows.
  assert (∀ row, row ∈ rows1 ++ rows2 → isNullish row = false) as Hnot.
  { intros row Hin. by apply plainRow_not_nullish, Hrows. }
  exists (concatS (rowLine <$> rows1)), (concatS (rowLine <$> rows2)).
  rewrite !format_array, !appendRows_lines;
    try first [exact Hnot
              |intros row Hin; apply Hnot, elem_of_app; auto].
  split_and!; [done..|]. f_equal. change ("" +:+ ?s) with s.
  by rewrite fmap_app, concatS_app.
Qed.

Lemma formatSqlResponseToSimpleTableString_app_witness :
  (∀ row, row ∈ [JsObject [("id", JsNumber 1); ("name", JsString "a")]]
                  ++ [JsArray [JsNumber 2; JsNull; JsBoolean true]] →
     plainRow row = true)
  ∧ ∃ text1 text2,
      formatSqlResponseToSimpleTableString
        (JsArray [JsObject [("id", JsNumber 1); ("name", JsString "a")]])
        = Normal text1
      ∧ formatSqlResponseToSimpleTableString
          (JsArray [JsArray [JsNumber 2; JsNull; JsBoolean true]])
        = Normal text2
      ∧ formatSqlResponseToSimpleTableString
          (JsArray ([JsObject [("id", JsNumber 1); ("name", JsString "a")]]
                      ++ [JsArray [JsNumber 2; JsNull; JsBoolean true]]))
        = Normal (text1 +:+ text2).
Proof.
  assert (∀ row,
            row ∈ [JsObject [("id", JsNumber 1); ("name", JsString "a")]]
                    ++ [JsArray [JsNumber 2; JsNull; JsBoolean true]] →
            plainRow row = true) as Hrows.
  { intros row Hin. simpl in Hin.
    rewrite !elem_of_cons, elem_of_nil in Hin.
    destruct Hin as [->|[->|[]]]; reflexivity. }
  split; [exact Hrows|].
  exact (formatSqlResponseToSimpleTableString_app _ _ Hrows).
Defined.

(** X11: the legend of a table has the layout of a row of the sample: it is
    the text that the formatting gives for one row that holds the names of
    the columns. *)
Theorem columnNamesConcatString_as_row (currentTable : SqlTable) :
  formatSqlResponseToSimpleTableString
    (JsArray [JsArray ((λ column, JsString (columnName column))
                         <$> columns currentTable)])
  = Normal (columnNamesConcatString currentTable).
Proof.
  rewrite format_array. cbn [appendRows Object_values]. f_equal.
  change ("" +:+ ?s) with s.
  unfold columnNamesConcatString, rowString. f_equal.
  by rewrite foldl_fmap.
Qed.

(** ** generateTableInfoFromTables *)

Lemma sampleLog_kind (answer : Settled) (e : Thrown) :
  e ∈ sampleLog answer → e = TypeError ∨ ∃ reason, e = Rejection reason.
Proof.
  destruct answer as [value|reason]; simpl.
  - destruct (formatSqlResponseToSimpleTableString value) as [s|e'] eqn:Hf.
    + intros Hin. by apply elem_of_nil in Hin.
    + intros ->%list_elem_of_singleton. left.
      by eapply format_throw_kind.
  - intros ->%list_elem_of_singleton. eauto.
Qed.

Lemma sampleLog_length (answer : Settled) : (length (sampleLog answer) ≤ 1)%nat.
Proof.
  destruct answer as [value|reason]; simpl; [|lia].
  destruct (formatSqlResponseToSimpleTableString value); simpl; lia.
Qed.

Lemma for_of_world {DB} (ds : DataSource DB) (n : Z) (tables : list SqlTable)
    (acc : string) (w : World DB) :
  (for_of tables (appendTableInfo ds n) acc w).2
  = Build_World (databaseAfter ds n tables (database w))
      (console w
         ++ concat (sampleLog <$> answersFrom ds n tables (database w))).
Proof.
  revert acc w. induction tables as [|t tables IH]; intros acc w.
  - simpl. rewrite app_nil_r. by destruct w.
  - cbn [for_of]. unfold bind. rewrite appendTableInfo_run.
    cbv beta iota zeta. rewrite IH. cbn [database console answersFrom fmap list_fmap concat].
    unfold databaseAfter. cbn [foldl]. by rewrite <- app_assoc.
Qed.

(** X12: the call never throws, whatever the data source does: a rejected
    query and an answer that cannot be formatted both leave a text. *)
Theorem generateTableInfoFromTables_never_throws {DB}
    (tables : option (list SqlTable)) (ds : DataSource DB) (n : Z)
    (w : World DB) :
  ∃ out, (generateTableInfoFromTables tables ds n w).1 = Normal out.
Proof.
  destruct tables as [tables|]; [|by exists ""].
  destruct (generate_Some_run ds n tables w) as [out Hout].
  exists out. by rewrite Hout.
Qed.

(** X13: the call sends one query for each table, in the order of the
    snapshot, and nothing else to the data source: the database it leaves
    is the one left by the sample queries of the tables, run in turn. *)
Theorem generateTableInfoFromTables_queries {DB} (tables : list SqlTable)
    (ds : DataSource DB) (n : Z) (w : World DB) :
  database (generateTableInfoFromTables (Some tables) ds n w).2
  = foldl (λ d t, (query ds (sqlSelectInfoQuery ds t n) d).2)
      (database w) tables.
Proof. cbn [generateTableInfoFromTables]. by rewrite for_of_world. Qed.

(** X14: the console only grows, by at most one entry for each table, and an
    entry is the rejection of a query or the [TypeError] of the formatting,
    never an error of this file. *)
Theorem generateTableInfoFromTables_console {DB} (tables : list SqlTable)
    (ds : DataSource DB) (n : Z) (w : World DB) :
  ∃ logs,
    console (generateTableInfoFromTables (Some tables) ds n w).2
      = console w ++ logs
    ∧ (length logs ≤ length tables)%nat
    ∧ ∀ e, e ∈ logs → e = TypeError ∨ ∃ reason, e = Rejection reason.
Proof.
  cbn [generateTableInfoFromTables]. rewrite for_of_world. cbn [console].
  eexists. split; [reflexivity|].
  generalize (database w) as d.
  induction tables as [|t tables IH]; intros d.
  - split; [done|]. intros e Hin. by apply elem_of_nil in Hin.
  - cbn [answersFrom fmap list_fmap concat length].
    destruct (IH (query ds (sqlSelectInfoQuery ds t n) d).2) as [Hlen Hkind].
    split.
    + rewrite length_app.
      pose proof (sampleLog_length
                    (query ds (sqlSelectInfoQuery ds t n) d).1). lia.
    + intros e [Hin|Hin]%elem_of_app; [by eapply sampleLog_kind|auto].
Qed.

(** X15: the text of a snapshot made of two parts is the text of the first
    part followed by the text of the second, the second call starting in
    the world that the first leaves. *)
Theorem generateTableInfoFromTables_app {DB} (tables1 tables2 : list SqlTable)
    (ds : DataSource DB) (n : Z) (w : World DB) :
  ∃ out1 w1 out2 w2,
    generateTableInfoFromTables (Some tables1) ds n w = (Normal out1, w1)
    ∧ generateTableInfoFromTables (Some tables2) ds n w1 = (Normal out2, w2)
    ∧ generateTableInfoFromTables (Some (tables1 ++ tables2)) ds n w
      = (Normal (out1 +:+ out2), w2).
Proof.
  cbn [generateTableInfoFromTables].
  destruct (for_of_appendTableInfo ds n tables1 "" w)
    as (out1 & w1 & Hout1 & _).
  destruct (for_of_appendTableInfo ds n tables2 out1 w1)
    as (out2 & w2 & Hout2 & Hacc).
  exists out1, w1, out2, w2. split_and!; [done..|].
  rewrite for_of_app. unfold bind. by rewrite Hout1.
Qed.

(** X16: one [undefined] or [null] row in the answer discards the whole
    sample of the table, the well-formed rows included: the block is the
    declaration, the statement and the legend, and the [TypeError] is
    logged. *)
Theorem generateTableInfoFromTables_nullish_row {DB} (t : SqlTable)
    (ds : DataSource DB) (n : Z) (w : World DB) (rows : list JsValue)
    (d : DB) :
  query ds (sqlSelectInfoQuery ds t n) (database w)
    = (Fulfilled (JsArray rows), d) →
  (∃ row, row ∈ rows ∧ isNullish row = true) →
  generateTableInfoFromTables (Some [t]) ds n w
  = (Normal (sqlCreateTableQuery t +:+ sqlSelectInfoQuery ds t n
               +:+ columnNamesConcatString t),
     Build_World d (console w ++ [TypeError])).
Proof.
  intros Hquery Hrows. cbn [generateTableInfoFromTables for_of].
  unfold bind. rewrite appendTableInfo_run. cbv zeta. rewrite Hquery.
  cbn [fst snd sampleText sampleLog].
  rewrite format_array, appendRows_nullish by done.
  unfold ret. by rewrite app_empty_r.
Qed.

Lemma generateTableInfoFromTables_nullish_row_witness :
  query (countingSource "mysql" holedAnswer)
    (sqlSelectInfoQuery (countingSource "mysql" holedAnswer) usersTable 5)
    (database (Build_World 0%nat []))
  = (Fulfilled (JsArray [JsObject [("id", JsNumber 1)]; JsNull]), 1%nat)
  ∧ (∃ row, row ∈ [JsObject [("id", JsNumber 1)]; JsNull]
            ∧ isNullish row = true)
  ∧ generateTableInfoFromTables (Some [usersTable])
      (countingSource "mysql" holedAnswer) 5 (Build_World 0%nat [])
    = (Normal (sqlCreateTableQuery usersTable
                 +:+ sqlSelectInfoQuery (countingSource "mysql" holedAnswer)
                       usersTable 5
                 +:+ columnNamesConcatString usersTable),
       Build_World 1%nat ([] ++ [TypeError])).
Proof.
  assert (∃ row, row ∈ [JsObject [("id", JsNumber 1)]; JsNull]
                 ∧ isNullish row = true) as Hrows.
  { exists JsNull. split; [|reflexivity]. right. left. }
  split; [reflexivity|]. split; [exact Hrows|].
  exact (generateTableInfoFromTables_nullish_row usersTable
           (countingSource "mysql" holedAnswer) 5 (Build_World 0%nat [])
           _ 1%nat eq_refl Hrows).
Defined.

(** X17: two tables have the same sample statement exactly when they have
    the same name, for every dialect and every count. *)
Theorem sqlSelectInfoQuery_same_name {DB} (ds : DataSource DB)
    (t t' : SqlTable) (n : Z) :
  sqlSelectInfoQuery ds t n = sqlSelectInfoQuery ds t' n
  ↔ tableName t = tableName t'.
Proof.
  split; [apply sqlSelectInfoQuery_inj|].
  intros Heq. unfold sqlSelectInfoQuery. by rewrite Heq.
Qed.

(** X18: the text is the blocks of the tables, one after the other in the
    order of the snapshot and with nothing between them; the block of a
    table is its declaration, its statement, its legend and its sample,
    which is empty unless the query is fulfilled and its answer is
    formatted without error. *)
Theorem generateTableInfoFromTables_blocks {DB} (tables : list SqlTable)
    (ds : DataSource DB) (n : Z) (w : World DB) :
  (generateTableInfoFromTables (Some tables) ds n w).1
  = Normal
      (concatS
         (zip_with
            (λ t answer,
               sqlCreateTableQuery t +:+ sqlSelectInfoQuery ds t n
                 +:+ columnNamesConcatString t
                 +:+ match answer with
                     | Fulfilled value =>
                         match formatSqlResponseToSimpleTableString value
                         with
                         | Normal sample => sample
                         | Throw _ => ""
                         end
                     | Rejected _ => ""
                     end)
            tables (answersFrom ds n tables (database w)))).
Proof.
  change (λ t answer, _) with (blockOf ds n).
  cbn [generateTableInfoFromTables].
  change (Normal (concatS ?l)) with (Normal ("" +:+ concatS l)).
  generalize "" as acc. revert w.
  induction tables as [|t tables IH]; intros w acc.
  - simpl. by rewrite app_empty_r.
  - cbn [for_of]. unfold bind. rewrite appendTableInfo_run.
    cbv beta iota zeta. rewrite IH.
    cbn [database answersFrom zip_with concatS]. f_equal.
    unfold blockOf at 2. by rewrite <- !app_assoc_s.
Qed.

(** ** getTableAndColumnsName *)

(** X19: for one of the three dialects the call sends one statement, a
    catalog query of the file; a rejection of the data source is thrown to
    the caller as it is, and an answer is returned normalised; the console
    is left as it was in both cases. *)
Theorem getTableAndColumnsName_outcome {DB}
    (asRawResults : JsValue → list RawResultTableAndColumn)
    (ds : DataSource DB) (w : World DB) :
  options_type ds ∈ supportedDialects →
  ∃ sql,
    sql ∈ [postgresSql; sqliteSql; mysqlSql (options_database ds)]
    ∧ getTableAndColumnsName asRawResults ds w
      = (match (query ds sql (database w)).1 with
         | Fulfilled value => Normal (formatToSqlTable (asRawResults value))
         | Rejected reason => Throw (Rejection reason)
         end,
         Build_World (query ds sql (database w)).2 (console w)).
Proof.
  intros Hin. rewrite getTableAndColumnsName_supported by done.
  exists (if bool_decide (options_type ds = "postgres") then postgresSql
          else if bool_decide (options_type ds = "sqlite") then sqliteSql
          else mysqlSql (options_database ds)).
  split.
  - repeat case_bool_decide; rewrite !elem_of_cons; eauto.
  - unfold listWith, bind, await_query, ret.
    by destruct (query ds _ (database w)) as [[value|reason] d].
Qed.

Lemma getTableAndColumnsName_outcome_witness :
  "sqlite" ∈ supportedDialects
  ∧ ∃ sql,
      sql ∈ [postgresSql; sqliteSql; mysqlSql None]
      ∧ getTableAndColumnsName threeRows
          (countingSource "sqlite" usersAnswer) (Build_World 0%nat [])
        = (match (query (countingSource "sqlite" usersAnswer) sql
                    (database (Build_World 0%nat []))).1 with
           | Fulfilled value => Normal (formatToSqlTable (threeRows value))
           | Rejected reason => Throw (Rejection reason)
           end,
           Build_World
             (query (countingSource "sqlite" usersAnswer) sql
                (database (Build_World 0%nat []))).2
             (console (Build_World 0%nat []))).
Proof.
  assert ("sqlite" ∈ supportedDialects) as Hin.
  { unfold supportedDialects. rewrite !elem_of_cons. tauto. }
  split; [exact Hin|].
  exact (getTableAndColumnsName_outcome threeRows
           (countingSource "sqlite" usersAnswer) (Build_World 0%nat []) Hin).
Defined.

(** X20: a snapshot that the call returns is well formed: its table names
    are pairwise distinct, none of its tables is without a column, and the
    list of its own table names is accepted against it. *)
Theorem getTableAndColumnsName_snapshot {DB}
    (asRawResults : JsValue → list RawResultTableAndColumn)
    (ds : DataSource DB) (w w' : World DB) (tables : list SqlTable) :
  getTableAndColumnsName asRawResults ds w = (Normal tables, w') →
  NoDup (tableName <$> tables)
  ∧ (∀ t, t ∈ tables → columns t ≠ [])
  ∧ ∀ errorPrefixMsg,
      verifyListTablesExistInDatabase tables (tableName <$> tables)
        errorPrefixMsg = Normal ().
Proof.
  intros Hget.
  assert (∃ value, tables = formatToSqlTable (asRawResults value))
    as [value ->].
  { revert Hget. unfold getTableAndColumnsName, listWith, throw.
    repeat case_bool_decide; try discriminate;
      unfold bind, await_query, ret;
      destruct (query ds _ (database w)) as [[value|reason] d];
      intros [= <- _]; eauto. }
  split_and!.
  - rewrite formatToSqlTable_grouped, <- list_fmap_compose, list_fmap_id.
    apply NoDup_firstOccurrences.
  - intros t. apply formatToSqlTable_nonempty.
  - intros prefix. rewrite verifyList_verifyEach. by apply verifyEach_Normal.
Qed.

Lemma getTableAndColumnsName_snapshot_witness :
  getTableAndColumnsName threeRows (countingSource "postgres" fulfilledAnswer)
    (Build_World 0%nat [])
  = (Normal (formatToSqlTable [rowT1a; rowT2c; rowT1b]), Build_World 1%nat [])
  ∧ NoDup (tableName <$> formatToSqlTable [rowT1a; rowT2c; rowT1b])
  ∧ (∀ t, t ∈ formatToSqlTable [rowT1a; rowT2c; rowT1b] → columns t ≠ []).
Proof.
  split; [reflexivity|].
  destruct (getTableAndColumnsName_snapshot threeRows
              (countingSource "postgres" fulfilledAnswer)
              (Build_World 0%nat []) (Build_World 1%nat [])
              (formatToSqlTable [rowT1a; rowT2c; rowT1b]) eq_refl)
    as (Hnodup & Hcols & _).
  split; [exact Hnodup|exact Hcols].
Defined.
